(** * ai-consultant-mcp: the consultation engine, embedded and verified

    A shallow embedding of the TypeScript sources

    - [src/utils/RateLimiter.ts]           (module [RateLimiter])
    - [src/infrastructure/HistoryManager.ts] (module [HistoryManager])
    - [src/infrastructure/Cache.ts]        ([generateCacheKey])
    - [src/services/ModelSelector.ts]      (module [ModelSelector])
    - [src/services/ConsultationService.ts] (module [ConsultationService])
    - [src/services/ApiClient.ts]          (module [ApiClient])
    - [src/mcp/handlers/ToolHandler.ts]    ([handleConsultAI])

    Conventions.  JavaScript numbers that hold counters, timestamps and
    token counts are integers [Z].  The two numeric settings that the
    limiter and the history manager receive, the ceiling of requests per
    minute and the maximum history length, are whatever number the
    configuration hands over, so they are values of [JsNumber.number]: a
    rational, an infinity or [NaN].  A [Map<string, V>] is a [gmap string V].
    An optional field is an [option]; JavaScript truthiness of an optional
    string is [truthy].  [Date.now()] is an explicit argument [now].  A
    [throw] is the left summand of the result.  One request runs to its end
    before the next one starts (the interleaving of asynchronous requests at
    the upstream call is not part of this model).  Of the console output,
    the [console.warn] of the service is kept, as the [warnings] of its
    state; the [console.error] diagnostics are left out. *)

From stdpp Require Import gmap strings list pretty.
From Stdlib Require Import QArith Qround Lqa.

(** * Part I: the embedding *)

(** ** Shared types ([src/types/index.ts]) *)

Module Types.

Inductive ModelType := GEMINI_2_5_PRO | GPT_5_CODEX | GROK_CODE_FAST_1.

Record ModelConfig := {
  id : string;
  description : string;
  bestFor : list string
}.

Inductive Role := user | system | assistant.

Record OpenRouterMessage := {
  role : Role;
  content : string
}.

Record TokenUsage := {
  prompt_tokens : option Z;
  completion_tokens : option Z;
  total_tokens : option Z
}.

Record ConsultResult := {
  model : string;
  response : string;
  usage : TokenUsage
}.

(** The field [model] of the arguments is [arg_model] here ([model] is the
    field of [ConsultResult]); [response] and [conversation_id] of
    [ConsultResponse] are [resp_response] and [resp_conversation_id]. *)
Record ConsultArgs := {
  prompt : string;
  arg_model : option string;
  models : option (list string);
  task_description : option string;
  conversation_id : option string;
  clear_history : option bool
}.

Record ConsultResponse := {
  model_used : string;
  resp_response : string;
  tokens_used : TokenUsage;
  resp_conversation_id : option string;
  cached : bool
}.

Record RateLimitEntry := {
  count : Z;
  resetTime : Z
}.

(** The error classes of [types/index.ts], and the plain [Error]. *)
Inductive Error :=
| RateLimitError (message : string) (waitTimeSeconds : Z)
| ApiError (message : string)
| PlainError (message : string).

Definition error_message (e : Error) : string :=
  match e with
  | RateLimitError m _ => m
  | ApiError m => m
  | PlainError m => m
  end.

(** [if (s)] on an optional string: [undefined] and the empty string are
    falsy. *)
Definition truthy (s : option string) : option string :=
  match s with
  | Some "" => None
  | Some s' => Some s'
  | None => None
  end.

(** [`${v}`] for a value that is a string or [undefined]. *)
Definition interpolate (s : option string) : string :=
  match s with
  | Some s' => s'
  | None => "undefined"
  end.

End Types.

(** ** JavaScript string operations used by the selector and the service

    A string is a Rocq [string]; [toLowerCase] maps the letters [A]..[Z] to
    [a]..[z] and leaves every other character as it is (case mappings of
    characters outside ASCII are not part of this model). *)

Module JsString.

Definition toLowerChar (c : Ascii.ascii) : Ascii.ascii :=
  let n := Ascii.N_of_ascii c in
  if ((65 <=? n) && (n <=? 90))%N then Ascii.ascii_of_N (n + 32) else c.

Fixpoint toLowerCase (s : string) : string :=
  match s with
  | EmptyString => EmptyString
  | String c s' => String (toLowerChar c) (toLowerCase s')
  end.

(** [s.includes(searchString)] *)
Fixpoint includes (s searchString : string) : bool :=
  String.prefix searchString s
  || match s with
     | EmptyString => false
     | String _ s' => includes s' searchString
     end.

(** [parts.join(separator)] *)
Fixpoint join (separator : string) (parts : list string) : string :=
  match parts with
  | [] => ""
  | [p] => p
  | p :: rest => p +:+ separator +:+ join separator rest
  end.

End JsString.

(** ** JavaScript numbers

    [Config.getNumberEnv] reads a setting with [Number(value)] and keeps
    every result other than [NaN]; [Config.validate] then asks only that the
    ceiling and the maximum history length be greater than 0.  The
    constructors of [RateLimiter] and [HistoryManager] take any [number].
    A finite number is modelled by the rational it denotes.  Comparisons
    are exact, as they are in JavaScript.  Subtraction is the subtraction of
    rationals; JavaScript rounds its result to the nearest double, which
    leaves it as it is for integers below 2^53 and for fractions with few
    binary digits such as 1.5 or 2.5.  What is proved below about a
    subtraction at a setting that is not an integer is stated as a sign, an
    order or a pair of bounds that the rounded result satisfies as well. *)

Module JsNumber.

Inductive number :=
| Finite (q : Q)
| PosInfinity
| NegInfinity
| NaN.

Definition ofZ (z : Z) : number := Finite (inject_Z z).

(** [x <= y] *)
Definition leb (x y : number) : bool :=
  match x, y with
  | Finite a, Finite b => Qle_bool a b
  | Finite _, PosInfinity => true
  | NegInfinity, (Finite _ | PosInfinity | NegInfinity) => true
  | PosInfinity, PosInfinity => true
  | _, _ => false
  end.

(** [x < y] *)
Definition ltb (x y : number) : bool :=
  match x, y with
  | Finite a, Finite b => negb (Qle_bool b a)
  | Finite _, PosInfinity => true
  | NegInfinity, (Finite _ | PosInfinity) => true
  | _, _ => false
  end.

(** [x - y] *)
Definition sub (x y : number) : number :=
  match x, y with
  | NaN, _ | _, NaN => NaN
  | Finite a, Finite b => Finite (a - b)
  | Finite _, PosInfinity => NegInfinity
  | Finite _, NegInfinity => PosInfinity
  | PosInfinity, PosInfinity => NaN
  | PosInfinity, _ => PosInfinity
  | NegInfinity, NegInfinity => NaN
  | NegInfinity, _ => NegInfinity
  end.

(** [Math.max(x, y)] *)
Definition max (x y : number) : number :=
  match x, y with
  | NaN, _ | _, NaN => NaN
  | PosInfinity, _ | _, PosInfinity => PosInfinity
  | NegInfinity, z | z, NegInfinity => z
  | Finite a, Finite b => if Qle_bool a b then Finite b else Finite a
  end.

(** Truncation toward zero, the integer that [ToIntegerOrInfinity] makes
    of a finite number. *)
Definition truncate (q : Q) : Z :=
  if Qle_bool 0 q then Qfloor q else Qceiling q.

(** How many elements [splice(0, deleteCount)] removes from an array of
    [len] elements: [ToIntegerOrInfinity(deleteCount)], which is 0 for
    [NaN], clamped to [0 .. len]. *)
Definition deleteCountOf (deleteCount : number) (len : nat) : nat :=
  match deleteCount with
  | Finite q => Z.to_nat (Z.min (Z.max (truncate q) 0) (Z.of_nat len))
  | PosInfinity => len
  | NegInfinity => 0
  | NaN => 0
  end.

End JsNumber.

(** An integer, where a number is expected, is that number. *)
Coercion JsNumber.ofZ : Z >-> JsNumber.number.

(** ** RateLimiter ([src/utils/RateLimiter.ts]) *)

Module RateLimiter.
Import Types.
Local Open Scope Z_scope.

Inductive Outcome :=
| Allowed
| RateLimited (waitTimeSeconds : Z).

(** [Math.ceil(x / d)] for integers [x] and [d > 0]. *)
Definition ceil_div (x d : Z) : Z := - ((- x) / d).

Definition windowMs : Z := 60000.

Definition newEntry (now : Z) : RateLimitEntry :=
  {| count := 1; resetTime := now + windowMs |}.

Definition increment (entry : RateLimitEntry) : RateLimitEntry :=
  {| count := count entry + 1; resetTime := resetTime entry |}.

Section Limiter.
Variable requestsPerMinute : JsNumber.number.

Definition checkLimit (now : Z) (identifier : string)
    (limitMap : gmap string RateLimitEntry)
  : Outcome * gmap string RateLimitEntry :=
  match limitMap !! identifier with
  | None => (Allowed, <[identifier := newEntry now]> limitMap)
  | Some entry =>
      if now >? resetTime entry then
        (Allowed, <[identifier := newEntry now]> limitMap)
      else if JsNumber.leb requestsPerMinute (JsNumber.ofZ (count entry)) then
        (RateLimited (ceil_div (resetTime entry - now) 1000), limitMap)
      else
        (Allowed, <[identifier := increment entry]> limitMap)
  end.

Definition reset (identifier : string)
    (limitMap : gmap string RateLimitEntry) : gmap string RateLimitEntry :=
  delete identifier limitMap.

Definition resetAll (limitMap : gmap string RateLimitEntry)
  : gmap string RateLimitEntry := ∅.

Definition getCount (now : Z) (identifier : string)
    (limitMap : gmap string RateLimitEntry) : Z :=
  match limitMap !! identifier with
  | None => 0
  | Some entry => if now >? resetTime entry then 0 else count entry
  end.

Definition getRemaining (now : Z) (identifier : string)
    (limitMap : gmap string RateLimitEntry) : JsNumber.number :=
  JsNumber.max (JsNumber.ofZ 0)
    (JsNumber.sub requestsPerMinute
                  (JsNumber.ofZ (getCount now identifier limitMap))).

(** A run of checks for one identifier at the given instants. *)
Fixpoint checkAll (times : list Z) (identifier : string)
    (limitMap : gmap string RateLimitEntry)
  : list Outcome * gmap string RateLimitEntry :=
  match times with
  | [] => ([], limitMap)
  | now :: rest =>
      let '(o, limitMap') := checkLimit now identifier limitMap in
      let '(os, limitMap'') := checkAll rest identifier limitMap' in
      (o :: os, limitMap'')
  end.

(** The check as the specification words it: the window is replaced as
    soon as [now] reaches the reset timestamp. *)
Definition checkLimit_as_specified (now : Z) (identifier : string)
    (limitMap : gmap string RateLimitEntry)
  : Outcome * gmap string RateLimitEntry :=
  match limitMap !! identifier with
  | None => (Allowed, <[identifier := newEntry now]> limitMap)
  | Some entry =>
      if now >=? resetTime entry then
        (Allowed, <[identifier := newEntry now]> limitMap)
      else if JsNumber.leb requestsPerMinute (JsNumber.ofZ (count entry)) then
        (RateLimited (ceil_div (resetTime entry - now) 1000), limitMap)
      else
        (Allowed, <[identifier := increment entry]> limitMap)
  end.

End Limiter.

(** Whether [identifier] has a window that has not elapsed at [now]. *)
Definition windowOpen (now : Z) (identifier : string)
    (limitMap : gmap string RateLimitEntry) : bool :=
  match limitMap !! identifier with
  | None => false
  | Some entry => negb (now >? resetTime entry)
  end.

End RateLimiter.

(** ** HistoryManager ([src/infrastructure/HistoryManager.ts]) *)

Module HistoryManager.
Import Types.
Local Open Scope Z_scope.

(** [l.splice(0, deleteCount)]: the removed front and what stays.  The
    delete count is made an integer and clamped to [0 .. l.length], as
    [Array.prototype.splice] does. *)
Definition splice0 {A} (deleteCount : JsNumber.number) (l : list A)
  : list A * list A :=
  let n := JsNumber.deleteCountOf deleteCount (length l) in
  (take n l, drop n l).

(** The list stored for a conversation, empty when there is none. *)
Definition stored (conversationId : string)
    (histories : gmap string (list OpenRouterMessage)) : list OpenRouterMessage :=
  default [] (histories !! conversationId).

Section Manager.
Variable maxHistoryLength : JsNumber.number.

Definition getHistory (conversationId : string)
    (histories : gmap string (list OpenRouterMessage))
  : list OpenRouterMessage * gmap string (list OpenRouterMessage) :=
  match histories !! conversationId with
  | Some history => (history, histories)
  | None => ([], <[conversationId := []]> histories)
  end.

(** The pruning step of [updateHistory]: (removed, kept). *)
Definition prune (history : list OpenRouterMessage)
  : list OpenRouterMessage * list OpenRouterMessage :=
  if JsNumber.ltb maxHistoryLength (JsNumber.ofZ (Z.of_nat (length history)))
  then
    let excess :=
      JsNumber.sub (JsNumber.ofZ (Z.of_nat (length history))) maxHistoryLength in
    splice0 excess history
  else ([], history).

Definition updateHistory (conversationId : string)
    (userMessage assistantMessage : OpenRouterMessage)
    (histories : gmap string (list OpenRouterMessage))
  : gmap string (list OpenRouterMessage) :=
  let '(history, histories1) := getHistory conversationId histories in
  let pushed := history ++ [userMessage; assistantMessage] in
  <[conversationId := (prune pushed).2]> histories1.

(** The messages one [updateHistory] call removes from the front. *)
Definition trimmed (conversationId : string)
    (userMessage assistantMessage : OpenRouterMessage)
    (histories : gmap string (list OpenRouterMessage)) : list OpenRouterMessage :=
  (prune ((getHistory conversationId histories).1
          ++ [userMessage; assistantMessage])).1.

Definition clearHistory (conversationId : string)
    (histories : gmap string (list OpenRouterMessage))
  : gmap string (list OpenRouterMessage) :=
  delete conversationId histories.

Definition hasHistory (conversationId : string)
    (histories : gmap string (list OpenRouterMessage)) : bool :=
  match histories !! conversationId with
  | Some history => Z.of_nat (length history) >? 0
  | None => false
  end.

Definition getConversationCount
    (histories : gmap string (list OpenRouterMessage)) : nat :=
  size histories.

Definition clearAll (histories : gmap string (list OpenRouterMessage))
  : gmap string (list OpenRouterMessage) := ∅.

(** The calls a client can make on the manager. *)
Inductive Call :=
| CallGet (conversationId : string)
| CallUpdate (conversationId : string) (userMessage assistantMessage : OpenRouterMessage)
| CallClear (conversationId : string)
| CallClearAll.

Definition call (c : Call) (histories : gmap string (list OpenRouterMessage))
  : gmap string (list OpenRouterMessage) :=
  match c with
  | CallGet conversationId => (getHistory conversationId histories).2
  | CallUpdate conversationId u a => updateHistory conversationId u a histories
  | CallClear conversationId => clearHistory conversationId histories
  | CallClearAll => clearAll histories
  end.

Definition calls (cs : list Call) (histories : gmap string (list OpenRouterMessage))
  : gmap string (list OpenRouterMessage) :=
  fold_left (fun h c => call c h) cs histories.

End Manager.

(** A sequence of [updateHistory] calls, and everything it appended to one
    conversation, in order. *)
Definition Update : Type := string * OpenRouterMessage * OpenRouterMessage.

Definition applyUpdates (maxHistoryLength : JsNumber.number) (ups : list Update)
    (histories : gmap string (list OpenRouterMessage))
  : gmap string (list OpenRouterMessage) :=
  fold_left (fun h '(c, u, a) => updateHistory maxHistoryLength c u a h)
            ups histories.

Definition appended (conversationId : string) (ups : list Update)
  : list OpenRouterMessage :=
  flat_map (fun '(c, u, a) =>
              if decide (c = conversationId) then [u; a] else []) ups.

End HistoryManager.

(** ** ModelSelector ([src/services/ModelSelector.ts]) *)

Module ModelSelector.
Import Types JsString.

Definition AVAILABLE_MODELS (key : ModelType) : ModelConfig :=
  match key with
  | GEMINI_2_5_PRO =>
      {| id := "google/gemini-2.5-pro";
         description := "Google's Gemini 2.5 Pro with large context window";
         bestFor := ["large context"; "general purpose"; "quick questions"] |}
  | GPT_5_CODEX =>
      {| id := "openai/gpt-5-codex";
         description := "OpenAI's GPT-5 Codex, optimized for coding tasks";
         bestFor := ["coding"; "complex tasks"; "large context"; "debugging";
                     "refactoring"] |}
  | GROK_CODE_FAST_1 =>
      {| id := "x-ai/grok-code-fast-1";
         description := "xAI's Grok Code Fast 1, optimized for code-related tasks";
         bestFor := ["complex reasoning"; "code review"; "detailed analysis";
                     "budget"] |}
  end.

(** The string value of each [ModelType] member: the keys of the table. *)
Definition modelKey (key : ModelType) : string :=
  match key with
  | GEMINI_2_5_PRO => "gemini-2.5-pro"
  | GPT_5_CODEX => "gpt-5-codex"
  | GROK_CODE_FAST_1 => "grok-code-fast-1"
  end.

Definition ownKey (modelId : string) : option ModelType :=
  if String.eqb modelId "gemini-2.5-pro" then Some GEMINI_2_5_PRO
  else if String.eqb modelId "gpt-5-codex" then Some GPT_5_CODEX
  else if String.eqb modelId "grok-code-fast-1" then Some GROK_CODE_FAST_1
  else None.

(** The table is an object literal, so a bracket lookup also finds the
    members it inherits from [Object.prototype]; each of them is truthy and
    has no [id] property. *)
Definition objectPrototypeKeys : list string :=
  ["constructor"; "hasOwnProperty"; "isPrototypeOf"; "propertyIsEnumerable";
   "toLocaleString"; "toString"; "valueOf"; "__proto__";
   "__defineGetter__"; "__defineSetter__"; "__lookupGetter__";
   "__lookupSetter__"].

(** What [this.models[modelId]] evaluates to. *)
Inductive Lookup :=
| Descriptor (config : ModelConfig)
| InheritedMember
| Undefined.

Definition getModelById (modelId : string) : Lookup :=
  match ownKey modelId with
  | Some key => Descriptor (AVAILABLE_MODELS key)
  | None =>
      if existsb (String.eqb modelId) objectPrototypeKeys then InheritedMember
      else Undefined
  end.

Definition getModelNames : list string :=
  [modelKey GEMINI_2_5_PRO; modelKey GPT_5_CODEX; modelKey GROK_CODE_FAST_1].

Definition codingKeywords : list string :=
  ["code"; "coding"; "typescript"; "javascript"; "python"; "java";
   "refactor"; "debug"; "function"; "class"; "bug"; "programming";
   "algorithm"].

Definition complexKeywords : list string :=
  ["complex"; "architecture"; "system design"; "detailed analysis";
   "in-depth"; "comprehensive"; "thorough"].

Definition quickKeywords : list string :=
  ["quick"; "simple"; "explain"; "what is"; "how to"; "large context";
   "summary"].

Definition budgetKeywords : list string :=
  ["budget"; "cost-effective"; "cheap"; "affordable"].

(** [keywords.some((keyword) => description.includes(keyword))] *)
Definition someIncluded (keywords : list string) (description : string) : bool :=
  existsb (fun keyword => includes description keyword) keywords.

Definition isCodingTask (description : string) : bool :=
  someIncluded codingKeywords description.

Definition isComplexAnalysisTask (description : string) : bool :=
  someIncluded complexKeywords description.

Definition isQuickQuestionTask (description : string) : bool :=
  someIncluded quickKeywords description.

Definition isBudgetTask (description : string) : bool :=
  someIncluded budgetKeywords description.

Definition selectModel (taskDescription : string) : ModelConfig :=
  let lowerDesc := toLowerCase taskDescription in
  if isCodingTask lowerDesc then AVAILABLE_MODELS GPT_5_CODEX
  else if isComplexAnalysisTask lowerDesc then AVAILABLE_MODELS GROK_CODE_FAST_1
  else if isQuickQuestionTask lowerDesc then AVAILABLE_MODELS GEMINI_2_5_PRO
  else if isBudgetTask lowerDesc then AVAILABLE_MODELS GROK_CODE_FAST_1
  else AVAILABLE_MODELS GPT_5_CODEX.

(** The selector as the specification words it: four keyword sets in a
    fixed order, the first set with a keyword in the text decides, and a
    fixed default when none has one. *)
Definition strategies : list (list string * ModelType) :=
  [(codingKeywords, GPT_5_CODEX);
   (complexKeywords, GROK_CODE_FAST_1);
   (quickKeywords, GEMINI_2_5_PRO);
   (budgetKeywords, GROK_CODE_FAST_1)].

Definition defaultModel : ModelConfig := AVAILABLE_MODELS GPT_5_CODEX.

Definition firstMatch (lowered : string) : ModelConfig :=
  match find (fun st => someIncluded st.1 lowered) strategies with
  | Some st => AVAILABLE_MODELS st.2
  | None => defaultModel
  end.

End ModelSelector.

(** ** ConsultationService ([src/services/ConsultationService.ts])

    The cache is the map of the entries that [node-cache] holds while a
    request runs; what its timer removes between two requests is [expire]
    of [ConsultationServiceViews].  The upstream client is a function
    [consultAI] over a state [U] of its own (network, circuit breaker),
    which either throws or returns a result. *)

Module ConsultationService.
Import Types JsString.
Local Open Scope Z_scope.

(** [generateCacheKey] of [src/infrastructure/Cache.ts]. *)
Definition generateCacheKey (prompt : string) (model : option string) : string :=
  let promptPrefix := String.substring 0 100 prompt in
  interpolate model +:+ ":" +:+ promptPrefix.

Definition newline : string := String (Ascii.ascii_of_nat 10) EmptyString.

(** One element of the [results] array of [consultMultipleModels]. *)
Record ModelEntry := {
  entry_model : string;
  entry_response : string;
  entry_usage : TokenUsage;
  entry_cached : bool
}.

Definition combineSection (index : nat) (result : ModelEntry) : string :=
  "## Model " +:+ pretty (index + 1)%nat +:+ ": " +:+ entry_model result
    +:+ (if entry_cached result then " (cached)" else "")
    +:+ newline +:+ newline
  +:+ (entry_response result +:+ newline +:+ newline)
  +:+ ("**Tokens used:** "
         +:+ pretty (default 0 (total_tokens (entry_usage result)))
         +:+ newline +:+ newline)
  +:+ ("---" +:+ newline +:+ newline).

Definition combineResponses (results : list ModelEntry) : string :=
  fold_left (fun combined section => combined +:+ section)
            (imap combineSection results)
            ("# Multi-Model Consultation Results" +:+ newline +:+ newline).

(** The model id the service resolves for a request (private
    [selectModel]), with the warnings it writes to the console. *)
Definition selectModel (explicitModel taskDescription : option string)
    (prompt : string) : option string * list string :=
  let description := default prompt (truthy taskDescription) in
  let auto := Some (id (ModelSelector.selectModel description)) in
  match truthy explicitModel with
  | Some requested =>
      match ModelSelector.getModelById requested with
      | ModelSelector.Descriptor modelConfig => (Some (id modelConfig), [])
      | ModelSelector.InheritedMember => (None, [])
      | ModelSelector.Undefined =>
          (auto,
           ["Invalid model ID: " +:+ requested +:+ ". Using auto-selection."])
      end
  | None => (auto, [])
  end.

(** [modelConfig ? modelConfig.id : modelId] in the multi-model loop. *)
Definition resolveBatchModel (modelId : string) : option string :=
  match ModelSelector.getModelById modelId with
  | ModelSelector.Descriptor modelConfig => Some (id modelConfig)
  | ModelSelector.InheritedMember => None
  | ModelSelector.Undefined => Some modelId
  end.

Definition checkCache (prompt : string) (model : option string)
    (cache : gmap string ConsultResult) : option ConsultResult :=
  cache !! generateCacheKey prompt model.

Definition cacheResult (prompt : string) (model : option string)
    (result : ConsultResult) (cache : gmap string ConsultResult)
  : gmap string ConsultResult :=
  <[generateCacheKey prompt model := result]> cache.

Definition rateLimitError (waitTimeSeconds : Z) : Error :=
  RateLimitError
    ("Rate limit exceeded. Please wait " +:+ pretty waitTimeSeconds
       +:+ " seconds before making another request.")
    waitTimeSeconds.

Definition zeroUsage : TokenUsage :=
  {| prompt_tokens := Some 0; completion_tokens := Some 0;
     total_tokens := Some 0 |}.

Definition errorEntry (modelId : string) (error : Error) : ModelEntry :=
  {| entry_model := modelId;
     entry_response := "Error: " +:+ error_message error;
     entry_usage := zeroUsage;
     entry_cached := false |}.

Definition resultEntry (modelId : string) (result : ConsultResult)
    (isCached : bool) : ModelEntry :=
  {| entry_model := modelId;
     entry_response := response result;
     entry_usage := usage result;
     entry_cached := isCached |}.

(** The sum of one usage field over the entries, a missing field counting
    as zero. *)
Definition sumTokens (field : TokenUsage -> option Z)
    (results : list ModelEntry) : Z :=
  foldr (fun entry acc => default 0 (field (entry_usage entry)) + acc) 0 results.

Section Service.
Context {U : Type}.
Variable consultAI :
  string -> option string -> list OpenRouterMessage -> U ->
  (Error + ConsultResult) * U.
Variable requestsPerMinute : JsNumber.number.
Variable maxHistoryLength : JsNumber.number.

(** Everything the service and its collaborators hold between requests. *)
Record State := {
  limitMap : gmap string RateLimitEntry;
  histories : gmap string (list OpenRouterMessage);
  cache : gmap string ConsultResult;
  upstream : U;
  warnings : list string
}.

Definition setLimitMap (m : gmap string RateLimitEntry) (s : State) : State :=
  {| limitMap := m; histories := histories s; cache := cache s;
     upstream := upstream s; warnings := warnings s |}.

Definition setHistories (h : gmap string (list OpenRouterMessage)) (s : State)
  : State :=
  {| limitMap := limitMap s; histories := h; cache := cache s;
     upstream := upstream s; warnings := warnings s |}.

Definition setCache (c : gmap string ConsultResult) (s : State) : State :=
  {| limitMap := limitMap s; histories := histories s; cache := c;
     upstream := upstream s; warnings := warnings s |}.

Definition setUpstream (u : U) (s : State) : State :=
  {| limitMap := limitMap s; histories := histories s; cache := cache s;
     upstream := u; warnings := warnings s |}.

Definition warn (ws : list string) (s : State) : State :=
  {| limitMap := limitMap s; histories := histories s; cache := cache s;
     upstream := upstream s; warnings := warnings s ++ ws |}.

(** [if (clear_history && conversation_id) clearHistory(conversation_id)] *)
Definition clearIfRequested (args : ConsultArgs) (s : State) : State :=
  match truthy (conversation_id args) with
  | Some conversationId =>
      if default false (clear_history args) then
        setHistories (HistoryManager.clearHistory conversationId (histories s)) s
      else s
  | None => s
  end.

Definition rateLimitId (args : ConsultArgs) : string :=
  default "global" (truthy (conversation_id args)).

(** The accumulators of the multi-model loop. *)
Record Batch := {
  results : list ModelEntry;
  totalPromptTokens : Z;
  totalCompletionTokens : Z;
  totalTokens : Z;
  state : State
}.

(** The end of the [try] block: push the entry, add its usage. *)
Definition collect (b : Batch) (s : State) (modelId : string)
    (result : ConsultResult) (isCached : bool) : Batch :=
  {| results := results b ++ [resultEntry modelId result isCached];
     totalPromptTokens :=
       totalPromptTokens b + default 0 (prompt_tokens (usage result));
     totalCompletionTokens :=
       totalCompletionTokens b + default 0 (completion_tokens (usage result));
     totalTokens := totalTokens b + default 0 (total_tokens (usage result));
     state := s |}.

(** The [catch] block: push an error entry, leave the totals alone. *)
Definition recover (b : Batch) (s : State) (modelId : string) (error : Error)
  : Batch :=
  {| results := results b ++ [errorEntry modelId error];
     totalPromptTokens := totalPromptTokens b;
     totalCompletionTokens := totalCompletionTokens b;
     totalTokens := totalTokens b;
     state := s |}.

(** One iteration of [for (const modelId of models)]. *)
Definition consultOne (args : ConsultArgs) (b : Batch) (modelId : string)
  : Batch :=
  let s := state b in
  let selectedModel := resolveBatchModel modelId in
  match truthy (conversation_id args) with
  | Some conversationId =>
      let '(history, hs) :=
        HistoryManager.getHistory conversationId (histories s) in
      let s1 := setHistories hs s in
      match consultAI (prompt args) selectedModel history (upstream s1) with
      | (inr result, u) => collect b (setUpstream u s1) modelId result false
      | (inl error, u) => recover b (setUpstream u s1) modelId error
      end
  | None =>
      match checkCache (prompt args) selectedModel (cache s) with
      | Some cachedResult => collect b s modelId cachedResult true
      | None =>
          match consultAI (prompt args) selectedModel [] (upstream s) with
          | (inr result, u) =>
              collect b
                (setCache (cacheResult (prompt args) selectedModel result
                                       (cache s))
                          (setUpstream u s))
                modelId result false
          | (inl error, u) => recover b (setUpstream u s) modelId error
          end
      end
  end.

Definition startBatch (s : State) : Batch :=
  {| results := []; totalPromptTokens := 0; totalCompletionTokens := 0;
     totalTokens := 0; state := s |}.

Definition consultMultipleModels (now : Z) (args : ConsultArgs) (s : State)
  : (Error + ConsultResult) * State :=
  match models args with
  | None | Some [] =>
      (inl (PlainError "No models specified for multi-model consultation"), s)
  | Some requested =>
      match RateLimiter.checkLimit requestsPerMinute now (rateLimitId args)
                                   (limitMap s) with
      | (RateLimiter.RateLimited w, _) => (inl (rateLimitError w), s)
      | (RateLimiter.Allowed, lm) =>
          let s1 := clearIfRequested args (setLimitMap lm s) in
          let b := fold_left (consultOne args) requested (startBatch s1) in
          let combinedResponse := combineResponses (results b) in
          let s2 :=
            match truthy (conversation_id args) with
            | Some conversationId =>
                setHistories
                  (HistoryManager.updateHistory maxHistoryLength conversationId
                     {| role := user; content := prompt args |}
                     {| role := assistant; content := combinedResponse |}
                     (histories (state b)))
                  (state b)
            | None => state b
            end in
          (inr {| model := "Multi-model: " +:+ join ", " requested;
                  response := combinedResponse;
                  usage := {| prompt_tokens := Some (totalPromptTokens b);
                              completion_tokens := Some (totalCompletionTokens b);
                              total_tokens := Some (totalTokens b) |} |},
           s2)
      end
  end.

Definition consult (now : Z) (args : ConsultArgs) (s : State)
  : (Error + ConsultResult) * State :=
  match models args with
  | Some (_ :: _) => consultMultipleModels now args s
  | _ =>
      match RateLimiter.checkLimit requestsPerMinute now (rateLimitId args)
                                   (limitMap s) with
      | (RateLimiter.RateLimited w, _) => (inl (rateLimitError w), s)
      | (RateLimiter.Allowed, lm) =>
          let s1 := clearIfRequested args (setLimitMap lm s) in
          let '(selectedModel, ws) :=
            selectModel (arg_model args) (task_description args) (prompt args) in
          let s2 := warn ws s1 in
          match truthy (conversation_id args) with
          | None =>
              match checkCache (prompt args) selectedModel (cache s2) with
              | Some cachedResult =>
                  (inr {| model := interpolate selectedModel +:+ " (cached)";
                          response := response cachedResult;
                          usage := usage cachedResult |},
                   s2)
              | None =>
                  match consultAI (prompt args) selectedModel []
                                  (upstream s2) with
                  | (inl error, u) => (inl error, setUpstream u s2)
                  | (inr result, u) =>
                      (inr result,
                       setCache (cacheResult (prompt args) selectedModel result
                                             (cache s2))
                                (setUpstream u s2))
                  end
              end
          | Some conversationId =>
              let '(history, hs) :=
                HistoryManager.getHistory conversationId (histories s2) in
              let s3 := setHistories hs s2 in
              match consultAI (prompt args) selectedModel history
                              (upstream s3) with
              | (inl error, u) => (inl error, setUpstream u s3)
              | (inr result, u) =>
                  (inr result,
                   setHistories
                     (HistoryManager.updateHistory maxHistoryLength
                        conversationId
                        {| role := user; content := prompt args |}
                        {| role := assistant; content := response result |}
                        hs)
                     (setUpstream u s3))
              end
          end
      end
  end.

(** [ToolHandler.handleConsultAI] up to the JSON text: the response object
    it formats. *)
Definition handleConsultAI (now : Z) (args : ConsultArgs) (s : State)
  : (Error + ConsultResponse) * State :=
  match prompt args with
  | EmptyString => (inl (PlainError "prompt is required"), s)
  | _ =>
      match consult now args s with
      | (inl error, s') => (inl error, s')
      | (inr result, s') =>
          (inr {| model_used := model result;
                  resp_response := response result;
                  tokens_used := usage result;
                  resp_conversation_id := truthy (conversation_id args);
                  cached := includes (model result) "(cached)" |},
           s')
      end
  end.

(** The state in which the multi-model loop starts. *)
Definition batchState (now : Z) (args : ConsultArgs) (s : State) : State :=
  clearIfRequested args
    (setLimitMap
       (RateLimiter.checkLimit requestsPerMinute now (rateLimitId args)
                               (limitMap s)).2 s).

Definition withoutModel (args : ConsultArgs) : ConsultArgs :=
  {| prompt := prompt args; arg_model := None; models := models args;
     task_description := task_description args;
     conversation_id := conversation_id args;
     clear_history := clear_history args |}.

End Service.

Arguments State : clear implicits.

(** *** A scripted upstream client for concrete runs

    It records the model id of every call, throws for Grok and answers for
    every other model, without a completion-token count. *)
Definition scriptedUpstream (prompt : string) (model : option string)
    (history : list OpenRouterMessage) (calls : list (option string))
  : (Error + ConsultResult) * list (option string) :=
  (if decide (model = Some "x-ai/grok-code-fast-1") then
     inl (ApiError "OpenRouter API error: upstream unavailable")
   else
     inr {| model := interpolate model;
            response := "answer";
            usage := {| prompt_tokens := Some 10;
                        completion_tokens := None;
                        total_tokens := Some 15 |} |},
   calls ++ [model]).

Definition emptyState : State (list (option string)) :=
  {| limitMap := ∅; histories := ∅; cache := ∅; upstream := [];
     warnings := [] |}.

Definition request (prompt : string) (models : option (list string))
  : ConsultArgs :=
  {| prompt := prompt; arg_model := None; models := models;
     task_description := None; conversation_id := None;
     clear_history := None |}.

(** The state after one stateless request "ping" on a new service, made at
    time 0 under the given ceiling: the answer is in the cache and the
    window of "global" holds one request. *)
Definition afterPing (requestsPerMinute : JsNumber.number)
  : State (list (option string)) :=
  (consult scriptedUpstream requestsPerMinute (JsNumber.ofZ 20) 0
           (request "ping" None) emptyState).2.

Definition pingAnswer : ConsultResult :=
  {| model := "openai/gpt-5-codex"; response := "answer";
     usage := {| prompt_tokens := Some 10; completion_tokens := None;
                 total_tokens := Some 15 |} |}.

End ConsultationService.

(** ** Runs of limiter calls

    The calls a client can make on the limiter that change or test the
    window map, each check with the clock reading it sees. *)

Module RateLimiterRuns.
Import Types RateLimiter.
Local Open Scope Z_scope.

Inductive LimiterCall :=
| Check (now : Z) (identifier : string)
| Reset (identifier : string)
| ResetAll.

Section Runs.
Variable requestsPerMinute : JsNumber.number.

(** One call: the outcome of a check (none for the resets) and the map
    afterwards. *)
Definition limiterCall (c : LimiterCall) (limitMap : gmap string RateLimitEntry)
  : option Outcome * gmap string RateLimitEntry :=
  match c with
  | Check now identifier =>
      let '(o, limitMap') := checkLimit requestsPerMinute now identifier limitMap in
      (Some o, limitMap')
  | Reset identifier => (None, reset identifier limitMap)
  | ResetAll => (None, resetAll limitMap)
  end.

(** A sequence of calls: the outcomes of its checks, in order, and the map
    afterwards. *)
Fixpoint limiterCalls (cs : list LimiterCall)
    (limitMap : gmap string RateLimitEntry)
  : list Outcome * gmap string RateLimitEntry :=
  match cs with
  | [] => ([], limitMap)
  | c :: rest =>
      let '(o, limitMap') := limiterCall c limitMap in
      let '(os, limitMap'') := limiterCalls rest limitMap' in
      (from_option (fun x => [x]) [] o ++ os, limitMap'')
  end.

End Runs.

(** The clock readings of the checks never go back, starting from [T]. *)
Fixpoint clockMonotone (T : Z) (cs : list LimiterCall) : Prop :=
  match cs with
  | [] => True
  | Check now _ :: rest => T <= now /\ clockMonotone now rest
  | _ :: rest => clockMonotone T rest
  end.

(** Every window of the map closes at most one window length after [T]. *)
Definition windowsWithin (T : Z) (limitMap : gmap string RateLimitEntry) : Prop :=
  forall identifier entry,
    limitMap !! identifier = Some entry -> resetTime entry <= T + windowMs.

(** Every count of the map is at least 1, and a count above 1 was reached
    from a count that the check found below the ceiling. *)
Definition countsBounded (requestsPerMinute : JsNumber.number)
    (limitMap : gmap string RateLimitEntry) : Prop :=
  forall identifier entry,
    limitMap !! identifier = Some entry ->
    1 <= count entry
    /\ (count entry = 1
        \/ JsNumber.leb requestsPerMinute (JsNumber.ofZ (count entry - 1))
           = false).

End RateLimiterRuns.

(** ** The model listing ([getAllModels], [ConsultationService.listModels])

    [Object.entries] walks the table in the order its keys were written. *)

Module ModelListing.
Import Types.

Definition modelTypes : list ModelType :=
  [GEMINI_2_5_PRO; GPT_5_CODEX; GROK_CODE_FAST_1].

(** [getAllModels]: the table as its entries, key and descriptor. *)
Definition getAllModels : list (string * ModelConfig) :=
  map (fun key => (ModelSelector.modelKey key, ModelSelector.AVAILABLE_MODELS key))
      modelTypes.

(** One element of what [listModels] returns. *)
Record ModelListingEntry := {
  listing_name : string;
  listing_id : string;
  listing_description : string;
  listing_bestFor : list string
}.

Definition listModels : list ModelListingEntry :=
  map (fun '(key, model) =>
         {| listing_name := key;
            listing_id := id model;
            listing_description := description model;
            listing_bestFor := bestFor model |})
      getAllModels.

(** The model names the server hands to the tool definitions:
    [listModels().map((m) => m.name)]. *)
Definition toolModelNames : list string := map listing_name listModels.

End ModelListing.

(** ** Views of the service state used to state its effects *)

Module ConsultationServiceViews.
Import Types ConsultationService.

(** A batch with the cache of its state replaced. *)
Definition batchWithCache {U : Type} (c : gmap string ConsultResult)
    (b : Batch) : @Batch U :=
  {| results := results b;
     totalPromptTokens := totalPromptTokens b;
     totalCompletionTokens := totalCompletionTokens b;
     totalTokens := totalTokens b;
     state := setCache c (state b) |}.

(** The history the single-model path hands to the upstream client: the
    stored list of the conversation, or the empty list without one. *)
Definition historyFor {U : Type} (args : ConsultArgs) (s : State U)
  : list OpenRouterMessage :=
  match truthy (conversation_id args) with
  | Some conversationId => HistoryManager.stored conversationId (histories s)
  | None => []
  end.

(** The turn that a request with answer [answer] appends to its history. *)
Definition turn (args : ConsultArgs) (answer : string)
  : list OpenRouterMessage :=
  [{| role := user; content := prompt args |};
   {| role := assistant; content := answer |}].

(** A request in a conversation, otherwise like [request]. *)
Definition requestIn (conversationId prompt : string)
    (models : option (list string)) : ConsultArgs :=
  {| prompt := prompt; arg_model := None; models := models;
     task_description := None; conversation_id := Some conversationId;
     clear_history := None |}.

(** A stateless request for one named model. *)
Definition requestOf (model prompt : string) : ConsultArgs :=
  {| prompt := prompt; arg_model := Some model; models := None;
     task_description := None; conversation_id := None;
     clear_history := None |}.

(** What the loop is to record for a model, in the words of the
    specification: the answer of the upstream client with its usage, or,
    when the call threw, the text "Error: " followed by the message of the
    error, with a usage of zero in every field. *)
Definition recorded (modelId : string) (outcome : Error + ConsultResult)
  : ModelEntry :=
  match outcome with
  | inr result =>
      {| entry_model := modelId;
         entry_response := response result;
         entry_usage := usage result;
         entry_cached := false |}
  | inl error =>
      {| entry_model := modelId;
         entry_response := "Error: " +:+ error_message error;
         entry_usage := {| prompt_tokens := Some 0%Z;
                           completion_tokens := Some 0%Z;
                           total_tokens := Some 0%Z |};
         entry_cached := false |}
  end.

(** The cached result that a request finds for a model id: none for a
    request in a conversation, which does not look into the cache. *)
Definition cachedUnder {U : Type} (args : ConsultArgs) (s : State U)
    (model : option string) : option ConsultResult :=
  match truthy (conversation_id args) with
  | Some _ => None
  | None => cache s !! generateCacheKey (prompt args) model
  end.

(** The service as a later request finds it: [node-cache] has dropped the
    entries whose time to live has run out.  [live] tells which keys it
    still holds. *)
Definition expire {U : Type} (live : string -> bool) (s : State U) : State U :=
  setCache (filter (fun entry => live entry.1 = true) (cache s)) s.

(** A prompt of 100 characters, to reach the end of the cache key. *)
Definition hundredChars : string :=
  String.concat "" (replicate 10 "0123456789").

End ConsultationServiceViews.

(** ** ApiClient ([src/services/ApiClient.ts])

    The HTTP call ([axios.post]) and the circuit breaker ([fire]) are
    functions over states of their own that either throw or return the
    body of the provider's answer.  A thrown value is told apart the way
    [handleError] does: an axios error, an [ApiError], any other [Error],
    or a value that is no [Error]. *)

Module ApiClient.
Import Types.

(** The body of an answer: the contents of its choices, and the usage. *)
Record OpenRouterResponse := {
  choices : list string;
  response_usage : TokenUsage
}.

Inductive Thrown :=
| AxiosFailure (providerMessage : option string) (message : string)
               (status : option Z)
| ApiErrorThrown (e : ApiErrorValue)
| OtherError (message : string)
| NotAnError
with ApiErrorValue :=
| MkApiError (message : string) (statusCode : option Z)
             (originalError : option Thrown).

Definition apiMessage (e : ApiErrorValue) : string :=
  match e with MkApiError m _ _ => m end.

Definition apiStatusCode (e : ApiErrorValue) : option Z :=
  match e with MkApiError _ s _ => s end.

Definition apiOriginalError (e : ApiErrorValue) : option Thrown :=
  match e with MkApiError _ _ o => o end.

(** [axios.isAxiosError(error)] *)
Definition isAxiosError (t : Thrown) : bool :=
  match t with AxiosFailure _ _ _ => true | _ => false end.

(** [response?.data?.error?.message || axiosError.message ||
    "Unknown API error"] *)
Definition axiosMessage (providerMessage : option string) (message : string)
  : string :=
  match truthy providerMessage with
  | Some m => m
  | None =>
      match truthy (Some message) with
      | Some m => m
      | None => "Unknown API error"
      end
  end.

Definition handleError (error : Thrown) : ApiErrorValue :=
  match error with
  | AxiosFailure providerMessage message status =>
      MkApiError ("OpenRouter API error: " +:+ axiosMessage providerMessage message)
                 status (Some error)
  | ApiErrorThrown e =>
      MkApiError ("API error: " +:+ apiMessage e) None (Some error)
  | OtherError message =>
      MkApiError ("API error: " +:+ message) None (Some error)
  | NotAnError => MkApiError "Unknown API error occurred" None None
  end.

Definition userMessage (prompt : string) : OpenRouterMessage :=
  {| role := user; content := prompt |}.

Section Client.
Context {H B : Type}.
Variable post :
  string -> list OpenRouterMessage -> H -> (Thrown + OpenRouterResponse) * H.
Variable fire :
  string -> list OpenRouterMessage -> B -> (Thrown + OpenRouterResponse) * B.
(** The message of the [TypeError] that reading [choices[0].message]
    raises when there is no first choice. *)
Variable noChoiceMessage : string.

Definition makeApiCall (model : string) (messages : list OpenRouterMessage)
    (h : H) : (ApiErrorValue + OpenRouterResponse) * H :=
  match post model messages h with
  | (inr data, h') => (inr data, h')
  | (inl error, h') => (inl (handleError error), h')
  end.

Definition consultAI (prompt model : string)
    (conversationHistory : list OpenRouterMessage) (b : B)
  : (ApiErrorValue + ConsultResult) * B :=
  let messages := conversationHistory ++ [userMessage prompt] in
  match fire model messages b with
  | (inr answer, b') =>
      match choices answer with
      | first :: _ =>
          (inr {| model := model; response := first;
                  usage := response_usage answer |}, b')
      | [] => (inl (handleError (OtherError noChoiceMessage)), b')
      end
  | (inl error, b') => (inl (handleError error), b')
  end.

End Client.

(** A breaker that lets the call through and hands on what it returns or
    throws, and a call that the provider refuses with HTTP 429. *)
Definition passThrough {H : Type}
    (post : string -> list OpenRouterMessage -> H
            -> (Thrown + OpenRouterResponse) * H)
    (model : string) (messages : list OpenRouterMessage) (h : H)
  : (Thrown + OpenRouterResponse) * H :=
  match makeApiCall post model messages h with
  | (inl e, h') => (inl (ApiErrorThrown e), h')
  | (inr answer, h') => (inr answer, h')
  end.

Definition tooManyRequests : Thrown :=
  AxiosFailure (Some "slow down") "Request failed" (Some 429%Z).

Definition failingPost (model : string) (messages : list OpenRouterMessage)
    (h : unit) : (Thrown + OpenRouterResponse) * unit :=
  (inl tooManyRequests, h).

End ApiClient.

(** * Part II: properties of the embedding *)

(** ** Facts about the string operations *)

Module JsStringFacts.
Import JsString.

Lemma append_cons x (a b : string) : String x a +:+ b = String x (a +:+ b).
Proof. reflexivity. Qed.

Lemma append_nil_l (b : string) : "" +:+ b = b.
Proof. reflexivity. Qed.

Lemma append_nil_r (a : string) : a +:+ "" = a.
Proof. induction a as [|x a IH]; [done | by rewrite append_cons, IH]. Qed.

Lemma append_assoc (a b c : string) : (a +:+ b) +:+ c = a +:+ (b +:+ c).
Proof.
  induction a as [|x a IH]; [done |]. by rewrite !append_cons, IH.
Qed.

Lemma prefix_split (k s : string) :
  String.prefix k s = true <-> exists b, s = k +:+ b.
Proof.
  revert s. induction k as [|x k IH]; intros s.
  - destruct s; simpl; split; eauto.
  - destruct s as [|y s]; simpl.
    + split; [discriminate | intros [b Hb]; discriminate].
    + destruct (Ascii.ascii_dec x y) as [->|Hne].
      * rewrite IH. split; intros [b Hb]; exists b;
          rewrite append_cons in *; congruence.
      * split; [discriminate |].
        intros [b Hb]. rewrite append_cons in Hb. congruence.
Qed.

Lemma includes_split (s k : string) :
  includes s k = true <-> exists a b, s = a +:+ k +:+ b.
Proof.
  induction s as [|x s IH]; cbn [includes].
  - rewrite orb_false_r, prefix_split. split.
    + intros [b Hb]. by exists "", b.
    + intros (a & b & Hab). destruct a; [by exists b | discriminate].
  - rewrite orb_true_iff, IH, prefix_split. split.
    + intros [[b Hb] | (a & b & Hab)].
      * by exists "", b.
      * exists (String x a), b. by rewrite append_cons, Hab.
    + intros (a & b & Hab). destruct a as [|y a].
      * left. by exists b.
      * right. exists a, b. rewrite append_cons in Hab. congruence.
Qed.

Lemma includes_trans (s k k' : string) :
  includes s k = true -> includes k k' = true -> includes s k' = true.
Proof.
  rewrite !includes_split. intros (a & b & ->) (c & d & ->).
  exists (a +:+ c), (d +:+ b). by rewrite !append_assoc.
Qed.

Lemma includes_suffix (a k : string) : includes (a +:+ k) k = true.
Proof. apply includes_split. exists a, "". by rewrite append_nil_r. Qed.

Lemma toLowerCase_append (a b : string) :
  toLowerCase (a +:+ b) = toLowerCase a +:+ toLowerCase b.
Proof.
  induction a as [|x a IH]; [done |].
  rewrite append_cons. simpl. by rewrite append_cons, IH.
Qed.

Lemma toLowerCase_includes (s k : string) :
  toLowerCase k = k -> includes s k = true ->
  includes (toLowerCase s) k = true.
Proof.
  intros Hk. rewrite !includes_split. intros (a & b & ->).
  exists (toLowerCase a), (toLowerCase b).
  by rewrite !toLowerCase_append, Hk.
Qed.

(** Concatenating sections onto a text one after the other. *)
Lemma fold_append (sections : list string) (init : string) :
  fold_left (fun combined section => combined +:+ section) sections init
  = init +:+ fold_left (fun combined section => combined +:+ section)
                       sections "".
Proof.
  revert init. induction sections as [|x l IH]; intros init; simpl.
  - by rewrite append_nil_r.
  - rewrite (IH (init +:+ x)), (IH ("" +:+ x)).
    by rewrite append_nil_l, append_assoc.
Qed.

Lemma fold_append_middle (l1 l2 : list string) (x init : string) :
  exists before after,
    fold_left (fun combined section => combined +:+ section)
              (l1 ++ x :: l2) init
    = before +:+ x +:+ after.
Proof.
  rewrite fold_left_app. simpl. rewrite fold_append.
  eexists _, _. by rewrite append_assoc.
Qed.

End JsStringFacts.

(** ** Facts about JavaScript numbers *)

Module JsNumberFacts.
Import JsNumber.
Local Open Scope Z_scope.

Lemma Qle_bool_inject (a b : Z) :
  Qle_bool (inject_Z a) (inject_Z b) = (a <=? b).
Proof. unfold Qle_bool. simpl. by rewrite !Z.mul_1_r. Qed.

Lemma Qle_bool_false (a b : Q) : Qle_bool a b = false <-> (b < a)%Q.
Proof.
  split.
  - intros H. apply Qnot_le_lt. intros Hle.
    apply Qle_bool_iff in Hle. congruence.
  - intros H. destruct (Qle_bool a b) eqn:E; [|done].
    apply Qle_bool_iff in E. lra.
Qed.


Lemma ltb_ofZ (a b : Z) : ltb (ofZ a) (ofZ b) = (a <? b).
Proof.
  unfold ltb, ofZ. rewrite Qle_bool_inject, Z.ltb_antisym. done.
Qed.

Lemma sub_ofZ (a b : Z) : sub (ofZ a) (ofZ b) = ofZ (a - b).
Proof.
  unfold sub, ofZ, inject_Z, Qminus, Qplus, Qopp. simpl. f_equal. f_equal. lia.
Qed.

Lemma max_ofZ (a b : Z) : max (ofZ a) (ofZ b) = ofZ (Z.max a b).
Proof.
  unfold max, ofZ. rewrite Qle_bool_inject.
  destruct (Z.leb_spec a b); f_equal; f_equal; lia.
Qed.

(** An integer is at least [q] exactly when it is at least the ceiling of
    [q], and above [q] exactly when it is above the floor of [q]. *)
Lemma Qle_ceiling_iff (q : Q) (z : Z) : (q <= inject_Z z)%Q <-> Qceiling q <= z.
Proof.
  split.
  - intros H. apply Qceiling_resp_le in H. by rewrite Qceiling_Z in H.
  - intros H. eapply Qle_trans; [apply Qle_ceiling |]. by rewrite Zle_Qle in H.
Qed.

Lemma Qlt_floor_iff (q : Q) (z : Z) : (q < inject_Z z)%Q <-> Qfloor q < z.
Proof.
  split.
  - intros H. apply Z.nle_gt. intros Hle. rewrite Zle_Qle in Hle.
    pose proof (Qfloor_le q). lra.
  - intros H. eapply Qlt_le_trans; [apply Qlt_floor |].
    rewrite <- Zle_Qle. lia.
Qed.

Lemma leb_Finite_ofZ (q : Q) (z : Z) :
  leb (Finite q) (ofZ z) = (Qceiling q <=? z).
Proof.
  unfold leb, ofZ. destruct (Z.leb_spec (Qceiling q) z) as [H|H].
  - apply Qle_bool_iff. by apply Qle_ceiling_iff.
  - apply Qle_bool_false. apply Qnot_le_lt. intros Hle.
    apply Qle_ceiling_iff in Hle. lia.
Qed.

Lemma ltb_Finite_ofZ (q : Q) (z : Z) :
  ltb (Finite q) (ofZ z) = (Qfloor q <? z).
Proof.
  unfold ltb, ofZ. destruct (Z.ltb_spec (Qfloor q) z) as [H|H].
  - apply negb_true_iff. apply Qle_bool_false. by apply Qlt_floor_iff.
  - apply negb_false_iff. apply Qle_bool_iff. apply Qnot_lt_le. intros Hlt.
    apply Qlt_floor_iff in Hlt. lia.
Qed.

Lemma leb_ofZ_Finite (z : Z) (q : Q) :
  leb (ofZ z) (Finite q) = (z <=? Qfloor q).
Proof.
  unfold leb, ofZ. destruct (Z.leb_spec z (Qfloor q)) as [H|H].
  - apply Qle_bool_iff. rewrite Zle_Qle in H.
    eapply Qle_trans; [exact H | apply Qfloor_le].
  - apply Qle_bool_false. apply Qlt_floor_iff. lia.
Qed.

Lemma ltb_ofZ_Finite (z : Z) (q : Q) :
  ltb (ofZ z) (Finite q) = (z <? Qceiling q).
Proof.
  unfold ltb, ofZ. destruct (Z.ltb_spec z (Qceiling q)) as [H|H].
  - apply negb_true_iff. apply Qle_bool_false. apply Qnot_le_lt. intros Hle.
    apply Qle_ceiling_iff in Hle. lia.
  - apply negb_false_iff. apply Qle_bool_iff. by apply Qle_ceiling_iff.
Qed.

Lemma Qfloor_le_ceiling (q : Q) : Qfloor q <= Qceiling q.
Proof. rewrite Zle_Qle. apply Qle_floor_ceiling. Qed.

Lemma Qceiling_le_floor_succ (q : Q) : Qceiling q <= Qfloor q + 1.
Proof.
  apply Qle_ceiling_iff. apply Qlt_le_weak. apply Qlt_floor.
Qed.

Lemma Qfloor_unique (q : Q) (n : Z) :
  (inject_Z n <= q)%Q -> (q < inject_Z (n + 1))%Q -> Qfloor q = n.
Proof.
  intros H1 H2.
  apply Qlt_floor_iff in H2.
  pose proof (Qfloor_resp_le _ _ H1) as H3. rewrite Qfloor_Z in H3. lia.
Qed.

(** What is cut off an integer [z] above [q]: [z] less the ceiling of [q]. *)
Lemma truncate_excess (z : Z) (q : Q) :
  (q < inject_Z z)%Q -> truncate (inject_Z z - q) = z - Qceiling q.
Proof.
  intros H. unfold truncate.
  assert (Hpos : Qle_bool 0 (inject_Z z - q) = true).
  { apply Qle_bool_iff. lra. }
  rewrite Hpos. apply Qfloor_unique.
  - unfold Z.sub. rewrite inject_Z_plus, inject_Z_opp.
    pose proof (Qle_ceiling q). lra.
  - replace (z - Qceiling q + 1) with (z + - (Qceiling q - 1)) by lia.
    rewrite inject_Z_plus, inject_Z_opp. pose proof (Qceiling_lt q). lra.
Qed.

Lemma Qceiling_pos (q : Q) : (0 < q)%Q -> 1 <= Qceiling q.
Proof.
  intros H. apply Z.lt_pred_le. simpl. apply Z.nle_gt. intros Hle.
  apply (Qle_ceiling_iff q 0) in Hle. change (inject_Z 0) with 0%Q in Hle. lra.
Qed.

Lemma Qceiling_nonneg (q : Q) : (0 <= q)%Q -> 0 <= Qceiling q.
Proof.
  intros H. rewrite Zle_Qle. change (inject_Z 0) with 0%Q.
  eapply Qle_trans; [exact H | apply Qle_ceiling].
Qed.

(** A count that has reached the ceiling stays at or above it. *)
Lemma leb_ofZ_mono (x : number) (c c' : Z) :
  c <= c' -> leb x (ofZ c) = true -> leb x (ofZ c') = true.
Proof.
  intros Hc. destruct x as [q| | |]; try done.
  rewrite !leb_Finite_ofZ. intros H. apply Z.leb_le in H. apply Z.leb_le. lia.
Qed.

End JsNumberFacts.

(** ** Facts about the rate limiter *)

Module RateLimiterFacts.
Import Types RateLimiter JsNumberFacts.
Local Open Scope Z_scope.

(** *** Arithmetic of the wait time *)

Lemma ceil_div_nonneg x : 0 <= x -> 0 <= ceil_div x 1000.
Proof.
  intros Hx. unfold ceil_div.
  assert (- x / 1000 <= 0); [|lia].
  apply Z.div_le_upper_bound; lia.
Qed.

Lemma ceil_div_pos x : 0 < x -> 0 < ceil_div x 1000.
Proof.
  intros Hx. unfold ceil_div.
  assert (- x / 1000 < 0); [|lia].
  apply Z.div_lt_upper_bound; lia.
Qed.

Lemma ceil_div_bounds x :
  1000 * (ceil_div x 1000 - 1) < x <= 1000 * ceil_div x 1000.
Proof.
  unfold ceil_div.
  pose proof (Z.div_mod (- x) 1000 ltac:(lia)) as Hdm.
  pose proof (Z.mod_pos_bound (- x) 1000 ltac:(lia)) as Hb.
  lia.
Qed.

(** *** The three branches of [checkLimit] *)

Lemma checkLimit_fresh rpm now identifier limitMap :
  limitMap !! identifier = None ->
  checkLimit rpm now identifier limitMap
  = (Allowed, <[identifier := newEntry now]> limitMap).
Proof. intros H. unfold checkLimit. by rewrite H. Qed.

Lemma checkLimit_elapsed rpm now identifier limitMap entry :
  limitMap !! identifier = Some entry ->
  resetTime entry < now ->
  checkLimit rpm now identifier limitMap
  = (Allowed, <[identifier := newEntry now]> limitMap).
Proof.
  intros H Hlt. unfold checkLimit. rewrite H, Z.gtb_ltb.
  destruct (Z.ltb_spec (resetTime entry) now); [done | lia].
Qed.

Lemma checkLimit_exceeded rpm now identifier limitMap entry :
  limitMap !! identifier = Some entry ->
  now <= resetTime entry ->
  JsNumber.leb rpm (JsNumber.ofZ (count entry)) = true ->
  checkLimit rpm now identifier limitMap
  = (RateLimited (ceil_div (resetTime entry - now) 1000), limitMap).
Proof.
  intros H Hle Hc. unfold checkLimit. rewrite H, Z.gtb_ltb, Hc.
  destruct (Z.ltb_spec (resetTime entry) now); [lia | done].
Qed.

Lemma checkLimit_increment rpm now identifier limitMap entry :
  limitMap !! identifier = Some entry ->
  now <= resetTime entry ->
  JsNumber.leb rpm (JsNumber.ofZ (count entry)) = false ->
  checkLimit rpm now identifier limitMap
  = (Allowed, <[identifier := increment entry]> limitMap).
Proof.
  intros H Hle Hc. unfold checkLimit. rewrite H, Z.gtb_ltb, Hc.
  destruct (Z.ltb_spec (resetTime entry) now); [lia | done].
Qed.

(** *** Consecutive checks inside one window *)

(** From an entry with count [c] whose window has not elapsed at any of the
    instants, check number [k] (from 0) is allowed exactly when [c + k] is
    still below the ceiling; the reset timestamp never moves. *)
Lemma checkAll_in_window rpm identifier times :
  forall (limitMap : gmap string RateLimitEntry) c R,
  limitMap !! identifier = Some {| count := c; resetTime := R |} ->
  Forall (fun t => t <= R) times ->
  (forall (k : nat) o,
      (checkAll rpm times identifier limitMap).1 !! k = Some o ->
      (o = Allowed
       <-> JsNumber.leb rpm (JsNumber.ofZ (c + Z.of_nat k)) = false))
  /\ exists c',
      (checkAll rpm times identifier limitMap).2 !! identifier
      = Some {| count := c'; resetTime := R |}.
Proof.
  induction times as [|now rest IH]; intros limitMap c R Hl Hall.
  - split; [intros k o; simpl; by rewrite lookup_nil | by exists c].
  - apply Forall_cons in Hall as [Hnow Hrest]. simpl.
    destruct (JsNumber.leb rpm (JsNumber.ofZ c)) eqn:Hc.
    + rewrite (checkLimit_exceeded _ _ _ _ _ Hl) by (simpl; done || lia).
      specialize (IH limitMap c R Hl Hrest).
      destruct (checkAll _ rest _ _) as [os m'] eqn:E. simpl in *.
      destruct IH as [IH1 IH2]. split; [|done].
      intros k o Hk.
      assert (Hge : JsNumber.leb rpm (JsNumber.ofZ (c + Z.of_nat k)) = true).
      { apply (leb_ofZ_mono rpm c); [lia | done]. }
      rewrite Hge. destruct k as [|k]; simpl in Hk.
      * inversion Hk; subst. done.
      * rewrite (IH1 k o Hk).
        rewrite (leb_ofZ_mono rpm c (c + Z.of_nat k)) by (lia || done). done.
    + rewrite (checkLimit_increment _ _ _ _ _ Hl) by (simpl; done || lia).
      specialize (IH (<[identifier := increment {| count := c; resetTime := R |}]> limitMap)
                     (c + 1) R (lookup_insert_eq _ _ _) Hrest).
      destruct (checkAll _ rest _ _) as [os m'] eqn:E. simpl in *.
      destruct IH as [IH1 IH2]. split; [|done].
      intros [|k] o Hk; simpl in Hk.
      * inversion Hk; subst. rewrite Z.add_0_r. done.
      * rewrite (IH1 k o Hk).
        replace (c + Z.of_nat (S k)) with (c + 1 + Z.of_nat k) by lia. done.
Qed.

Lemma checkAll_length rpm identifier times :
  forall limitMap : gmap string RateLimitEntry,
  length (checkAll rpm times identifier limitMap).1 = length times.
Proof.
  induction times as [|now rest IH]; intros limitMap; [done |].
  simpl. destruct (checkLimit _ _ _ _) as [o m1].
  specialize (IH m1). destruct (checkAll _ rest _ _) as [os m2].
  simpl in *. by rewrite IH.
Qed.

Lemma checkLimit_opens_window rpm now identifier limitMap :
  windowOpen now identifier limitMap = false ->
  checkLimit rpm now identifier limitMap
  = (Allowed, <[identifier := newEntry now]> limitMap).
Proof.
  unfold windowOpen. intros H.
  destruct (limitMap !! identifier) as [entry|] eqn:E.
  - apply (checkLimit_elapsed _ _ _ _ _ E).
    rewrite Z.gtb_ltb in H. destruct (Z.ltb_spec (resetTime entry) now); [done | discriminate].
  - by apply checkLimit_fresh.
Qed.

Lemma checkAll_window rpm identifier t0 times
    (limitMap : gmap string RateLimitEntry) :
  windowOpen t0 identifier limitMap = false ->
  Forall (fun t => t <= t0 + windowMs) times ->
  (forall (k : nat) o,
      (checkAll rpm (t0 :: times) identifier limitMap).1 !! k = Some o ->
      (o = Allowed
       <-> k = 0%nat
           \/ JsNumber.leb rpm (JsNumber.ofZ (Z.of_nat k)) = false))
  /\ exists c',
      (checkAll rpm (t0 :: times) identifier limitMap).2 !! identifier
      = Some {| count := c'; resetTime := t0 + windowMs |}.
Proof.
  intros Hw Hall. simpl. rewrite (checkLimit_opens_window _ _ _ _ Hw).
  pose proof (checkAll_in_window rpm identifier times
                (<[identifier := newEntry t0]> limitMap) 1 (t0 + windowMs)
                (lookup_insert_eq _ _ _) Hall) as [H1 H2].
  destruct (checkAll _ times _ _) as [os m'] eqn:E. simpl in *.
  split; [|done].
  intros [|k] o Hk; simpl in Hk.
  - inversion Hk; subst. split; [by left | done].
  - rewrite (H1 k o Hk).
    replace (Z.of_nat (S k)) with (1 + Z.of_nat k) by lia.
    split; [by right | by intros [? | ?]].
Qed.

(** The outcomes of a run are all successes when each of them is. *)
Lemma run_all_allowed (os : list Outcome) (bound : Z) :
  1 <= bound ->
  (forall (k : nat) o, os !! k = Some o -> (o = Allowed <-> Z.of_nat k < bound)) ->
  (Forall (fun o => o = Allowed) os <-> Z.of_nat (length os) <= bound).
Proof.
  intros Hb Hidx. split.
  - intros HF. destruct os as [|o0 os']; [simpl; lia |].
    destruct (lookup_lt_is_Some_2 (o0 :: os') (length os')) as [o Ho].
    { simpl. lia. }
    pose proof (proj1 (Forall_lookup _ _) HF _ _ Ho) as Hal.
    apply (Hidx _ _ Ho) in Hal. simpl. lia.
  - intros Hn. apply Forall_lookup. intros k o Ho.
    apply (Hidx k o Ho). apply lookup_lt_Some in Ho. lia.
Qed.

(** ** C1 as the code has it

    [checkLimit] replaces the window only when [now] is strictly past the
    reset timestamp.  At the reset instant itself the old window still
    counts, and a refused call then carries a wait of 0 seconds. *)

(** C1, counterexample.  With ceiling 1, a first check at time 0 opens a
    window that resets at 60000.  At [now = 60000] the claim's fresh-window
    condition ([now] at least the reset timestamp) holds, so the claim
    promises a fresh window and success; the code refuses the call, with a
    wait of 0 seconds, which is not positive. *)
Lemma checkLimit_at_reset_instant :
  let limitMap := (checkLimit (JsNumber.ofZ 1) 0 "conv" ∅).2 in
  limitMap !! "conv" = Some {| count := 1; resetTime := 60000 |}
  /\ (60000 >=? 60000) = true
  /\ checkLimit (JsNumber.ofZ 1) 60000 "conv" limitMap
     = (RateLimited 0, limitMap)
  /\ checkLimit_as_specified (JsNumber.ofZ 1) 60000 "conv" limitMap
     = (Allowed, <["conv" := newEntry 60000]> limitMap)
  /\ (0 <? 0) = false.
Proof.
  cbv zeta. repeat split; vm_compute; reflexivity.
Qed.

(** C1, amended.  For every identifier and every ceiling the limiter can be
    given: with no entry, or with [now] strictly past the entry's reset
    timestamp, a fresh window with count 1 and reset timestamp
    [now + 60000] is stored and the call succeeds; otherwise, when the
    comparison [count >= ceiling] holds, the call is refused, the map is
    left as it was, and the wait is the ceiling of the remaining
    milliseconds over 1000, which is never negative and is positive
    whenever [now] is before the reset timestamp; otherwise the count goes
    up by one and the call succeeds.  Consequently, of a run of checks that
    starts a window at [t0] and stays at or before [t0 + 60000], the first
    check succeeds and check number [k] after it succeeds iff [k >= ceiling]
    is false.  For a finite ceiling [q > 0] that is iff [k] is below [q]
    rounded up, so all [N] checks succeed iff [N] is at most [q] rounded
    up; for an integer ceiling [n >= 1], iff [N <= n]; with an infinite
    ceiling all succeed.  The first check after [t0 + 60000] succeeds and
    stores count 1 again. *)
Theorem checkLimit_fixed_window
    (rpm : JsNumber.number) (identifier : string)
    (limitMap : gmap string RateLimitEntry) :
  (forall now,
     match limitMap !! identifier with
     | None =>
         checkLimit rpm now identifier limitMap
         = (Allowed, <[identifier := newEntry now]> limitMap)
     | Some entry =>
         (resetTime entry < now ->
          checkLimit rpm now identifier limitMap
          = (Allowed, <[identifier := newEntry now]> limitMap))
         /\ (now <= resetTime entry ->
             JsNumber.leb rpm (JsNumber.ofZ (count entry)) = true ->
             let w := ceil_div (resetTime entry - now) 1000 in
             checkLimit rpm now identifier limitMap = (RateLimited w, limitMap)
             /\ 0 <= w
             /\ (now < resetTime entry -> 0 < w)
             /\ 1000 * (w - 1) < resetTime entry - now <= 1000 * w)
         /\ (now <= resetTime entry ->
             JsNumber.leb rpm (JsNumber.ofZ (count entry)) = false ->
             checkLimit rpm now identifier limitMap
             = (Allowed, <[identifier := increment entry]> limitMap))
     end)
  /\ (forall t0 times,
        windowOpen t0 identifier limitMap = false ->
        Forall (fun t => t <= t0 + windowMs) times ->
        let run := checkAll rpm (t0 :: times) identifier limitMap in
        let N := Z.of_nat (length (t0 :: times)) in
        (forall (k : nat) o,
            run.1 !! k = Some o ->
            (o = Allowed
             <-> k = 0%nat
                 \/ JsNumber.leb rpm (JsNumber.ofZ (Z.of_nat k)) = false))
        /\ (forall q,
              rpm = JsNumber.Finite q -> (0 < q)%Q ->
              (forall (k : nat) o,
                  run.1 !! k = Some o ->
                  (o = Allowed <-> Z.of_nat k < Qceiling q))
              /\ (Forall (fun o => o = Allowed) run.1 <-> N <= Qceiling q))
        /\ (forall n,
              rpm = JsNumber.ofZ n -> 1 <= n ->
              (forall (k : nat) o,
                  run.1 !! k = Some o -> (o = Allowed <-> Z.of_nat k < n))
              /\ (Forall (fun o => o = Allowed) run.1 <-> N <= n))
        /\ (rpm = JsNumber.PosInfinity -> Forall (fun o => o = Allowed) run.1)
        /\ (forall t', t0 + windowMs < t' ->
              checkLimit rpm t' identifier run.2
              = (Allowed, <[identifier := newEntry t']> run.2)
              /\ count (newEntry t') = 1)).
Proof.
  split.
  - intros now. destruct (limitMap !! identifier) as [entry|] eqn:E.
    + split; [|split].
      * by apply checkLimit_elapsed.
      * intros Hle Hc. cbv zeta. split; [by apply checkLimit_exceeded |].
        split; [apply ceil_div_nonneg; lia |].
        split; [intros; apply ceil_div_pos; lia | apply ceil_div_bounds].
      * by apply checkLimit_increment.
    + by apply checkLimit_fresh.
  - intros t0 times Hw Hall run N.
    pose proof (checkAll_window rpm identifier t0 times limitMap Hw Hall)
      as [Hk [c' Hc']].
    pose proof (checkAll_length rpm identifier (t0 :: times) limitMap) as Hlen.
    fold run in Hk, Hc', Hlen.
    assert (Hfin : forall q,
               rpm = JsNumber.Finite q -> (0 < q)%Q ->
               (forall (k : nat) o,
                   run.1 !! k = Some o ->
                   (o = Allowed <-> Z.of_nat k < Qceiling q))
               /\ (Forall (fun o => o = Allowed) run.1 <-> N <= Qceiling q)).
    { intros q Hq Hpos. pose proof (Qceiling_pos q Hpos) as Hceil.
      assert (Hidx : forall (k : nat) o,
                 run.1 !! k = Some o ->
                 (o = Allowed <-> Z.of_nat k < Qceiling q)).
      { intros k o Ho. rewrite (Hk k o Ho), Hq, leb_Finite_ofZ.
        rewrite Z.leb_gt. lia. }
      split; [exact Hidx |]. unfold N. rewrite <- Hlen.
      by apply run_all_allowed. }
    split; [exact Hk |]. split; [exact Hfin |]. split; [|split].
    + intros n Hn H1.
      assert (Hpos : (0 < inject_Z n)%Q).
      { change 0%Q with (inject_Z 0). rewrite <- Zlt_Qlt. lia. }
      pose proof (Hfin (inject_Z n) Hn Hpos) as Hq.
      by rewrite Qceiling_Z in Hq.
    + intros Hinf. apply Forall_lookup. intros k o Ho.
      apply (Hk k o Ho). right. by rewrite Hinf.
    + intros t' Ht'. split; [|done].
      apply (checkLimit_elapsed _ _ _ _ _ Hc'). simpl. lia.
Qed.

(** Runs the theorem applies to: ceiling 2, three checks in one window; and
    ceiling 1.5, under which two checks of a window pass. *)
Lemma checkLimit_fixed_window_witness :
  let run := checkAll (JsNumber.ofZ 2) [0; 10; 30500] "conv"
               (∅ : gmap string RateLimitEntry) in
  let run' := checkAll (JsNumber.Finite (3 # 2)) [0; 10] "conv"
                (∅ : gmap string RateLimitEntry) in
  (Forall (fun o => o = Allowed) run.1 <-> (3 <= 2)%Z)
  /\ run.1 = [Allowed; Allowed; RateLimited 30]
  /\ (Forall (fun o => o = Allowed) run'.1 <-> (2 <= 2)%Z)
  /\ (checkAll (JsNumber.Finite (3 # 2)) [0; 10; 20] "conv"
        (∅ : gmap string RateLimitEntry)).1
     = [Allowed; Allowed; RateLimited 60].
Proof.
  split; [|split; [reflexivity | split; [|reflexivity]]].
  - refine (proj2 (proj1 (proj2 (proj2
             (proj2 (checkLimit_fixed_window (JsNumber.ofZ 2) "conv" ∅)
                    0 [10; 30500] _ _))) 2 eq_refl _)).
    + reflexivity.
    + repeat constructor; unfold windowMs; lia.
    + lia.
  - refine (proj2 (proj1 (proj2
             (proj2 (checkLimit_fixed_window (JsNumber.Finite (3 # 2)) "conv" ∅)
                    0 [10] _ _)) (3 # 2) eq_refl _)).
    + reflexivity.
    + repeat constructor; unfold windowMs; lia.
    + reflexivity.
Defined.

(** ** C10: checks and resets touch one identifier only *)

(** C10.  For distinct identifiers [a] and [b], [checkLimit a], whether it
    succeeds or is refused, leaves the entry of [b] (count and reset
    timestamp) as it was, and [reset a] removes the entry of [a] and leaves
    that of [b] as it was. *)
Theorem checkLimit_reset_frame
    (rpm : JsNumber.number) (now : Z) (a b : string)
    (limitMap : gmap string RateLimitEntry) :
  a <> b ->
  (checkLimit rpm now a limitMap).2 !! b = limitMap !! b
  /\ reset a limitMap !! b = limitMap !! b
  /\ reset a limitMap !! a = None.
Proof.
  intros Hab. split; [|split].
  - unfold checkLimit.
    destruct (limitMap !! a) as [entry|]; [|by simpl; rewrite lookup_insert_ne].
    destruct (now >? resetTime entry); [by simpl; rewrite lookup_insert_ne |].
    destruct (JsNumber.leb rpm _); [done |].
    by simpl; rewrite lookup_insert_ne.
  - unfold reset. by rewrite lookup_delete_ne.
  - unfold reset. by rewrite lookup_delete_eq.
Qed.

Lemma checkLimit_reset_frame_witness :
  let limitMap : gmap string RateLimitEntry :=
    {[ "b" := {| count := 3; resetTime := 500 |} ]} in
  (checkLimit (JsNumber.ofZ 20) 100 "a" limitMap).2 !! "b"
  = Some {| count := 3; resetTime := 500 |}
  /\ reset "a" limitMap !! "b" = Some {| count := 3; resetTime := 500 |}
  /\ reset "a" limitMap !! "a" = None.
Proof.
  exact (checkLimit_reset_frame (JsNumber.ofZ 20) 100 "a" "b"
           {[ "b" := {| count := 3; resetTime := 500 |} ]}
           ltac:(discriminate)).
Defined.

End RateLimiterFacts.

(** ** Facts about the history manager *)

Module HistoryManagerFacts.
Import Types HistoryManager JsNumberFacts.
Local Open Scope Z_scope.

(** *** Pruning *)

Lemma prune_suffix max history : (prune max history).2 `suffix_of` history.
Proof.
  unfold prune. destruct (JsNumber.ltb _ _); simpl; [apply suffix_drop | done].
Qed.

Lemma prune_partition max history :
  (prune max history).1 ++ (prune max history).2 = history.
Proof.
  unfold prune. destruct (JsNumber.ltb _ _); simpl; [apply take_drop | done].
Qed.

(** Of a finite maximum only its ceiling matters: the list loses what it
    has above the maximum rounded up. *)
Lemma prune_Finite q history :
  prune (JsNumber.Finite q) history
  = (take (Z.to_nat (Z.of_nat (length history) - Qceiling q)) history,
     drop (Z.to_nat (Z.of_nat (length history) - Qceiling q)) history).
Proof.
  unfold prune. rewrite ltb_Finite_ofZ.
  destruct (Z.ltb_spec (Qfloor q) (Z.of_nat (length history))) as [H|H].
  - unfold splice0, JsNumber.sub, JsNumber.ofZ, JsNumber.deleteCountOf.
    rewrite truncate_excess by (by apply Qlt_floor_iff).
    pose proof (Qceiling_le_floor_succ q) as Hc.
    set (e := Z.of_nat (length history) - Qceiling q) in *.
    destruct (Z.le_gt_cases e (Z.of_nat (length history))) as [He|He].
    + replace (Z.to_nat (Z.min (Z.max e 0) (Z.of_nat (length history))))
        with (Z.to_nat e) by lia.
      done.
    + rewrite !take_ge, !drop_ge by lia. done.
  - pose proof (Qfloor_le_ceiling q).
    replace (Z.to_nat (Z.of_nat (length history) - Qceiling q)) with 0%nat
      by lia.
    done.
Qed.

Lemma prune_PosInfinity history :
  prune JsNumber.PosInfinity history = ([], history).
Proof. reflexivity. Qed.

Lemma prune_length q history :
  0 <= Qceiling q ->
  Z.of_nat (length (prune (JsNumber.Finite q) history).2)
  = Z.min (Z.of_nat (length history)) (Qceiling q).
Proof.
  intros Hmax. rewrite prune_Finite. simpl. rewrite length_drop. lia.
Qed.

Lemma prune_removed_length q history :
  0 <= Qceiling q ->
  Z.of_nat (length (prune (JsNumber.Finite q) history).1)
  = Z.max 0 (Z.of_nat (length history) - Qceiling q).
Proof.
  intros Hmax. rewrite prune_Finite. simpl. rewrite length_take. lia.
Qed.

(** *** What one update stores *)

Lemma getHistory_stored conversationId histories :
  (getHistory conversationId histories).1 = stored conversationId histories.
Proof.
  unfold getHistory, stored. by destruct (histories !! conversationId).
Qed.

Lemma stored_getHistory c conversationId histories :
  stored conversationId (getHistory c histories).2
  = stored conversationId histories.
Proof.
  unfold getHistory, stored.
  destruct (histories !! c) eqn:E; [done |]. simpl.
  destruct (decide (c = conversationId)) as [->|Hne].
  - by rewrite lookup_insert_eq, E.
  - by rewrite lookup_insert_ne.
Qed.

Lemma updateHistory_lookup max c u a histories :
  updateHistory max c u a histories !! c
  = Some (prune max (stored c histories ++ [u; a])).2.
Proof.
  unfold updateHistory, getHistory, stored.
  destruct (histories !! c); simpl; by rewrite lookup_insert_eq.
Qed.

Lemma stored_updateHistory_eq max c u a histories :
  stored c (updateHistory max c u a histories)
  = (prune max (stored c histories ++ [u; a])).2.
Proof. unfold stored at 1. by rewrite updateHistory_lookup. Qed.

Lemma stored_updateHistory_ne max c conversationId u a histories :
  c <> conversationId ->
  stored conversationId (updateHistory max c u a histories)
  = stored conversationId histories.
Proof.
  intros Hne. unfold updateHistory, getHistory, stored.
  destruct (histories !! c); simpl; by rewrite !lookup_insert_ne.
Qed.

(** *** The invariant of a run of updates *)

Lemma applyUpdates_snoc max ups c u a histories :
  applyUpdates max (ups ++ [(c, u, a)]) histories
  = updateHistory max c u a (applyUpdates max ups histories).
Proof. unfold applyUpdates. by rewrite fold_left_app. Qed.

Lemma appended_snoc conversationId ups c u a :
  appended conversationId (ups ++ [(c, u, a)])
  = appended conversationId ups
    ++ (if decide (c = conversationId) then [u; a] else []).
Proof.
  unfold appended. rewrite flat_map_app. simpl. by rewrite app_nil_r.
Qed.

Lemma applyUpdates_suffix max conversationId ups :
  stored conversationId (applyUpdates max ups ∅)
  `suffix_of` appended conversationId ups.
Proof.
  induction ups as [|[[c u] a] ups IH] using rev_ind.
  - simpl. unfold stored. by rewrite lookup_empty.
  - rewrite applyUpdates_snoc, appended_snoc.
    destruct (decide (c = conversationId)) as [->|Hne].
    + rewrite stored_updateHistory_eq.
      etrans; [apply prune_suffix | by apply suffix_app].
    + rewrite stored_updateHistory_ne by done. by rewrite app_nil_r.
Qed.

Lemma applyUpdates_length q conversationId ups :
  0 <= Qceiling q ->
  Z.of_nat (length (stored conversationId
                      (applyUpdates (JsNumber.Finite q) ups ∅)))
  = Z.min (Z.of_nat (length (appended conversationId ups))) (Qceiling q).
Proof.
  intros Hmax. induction ups as [|[[c u] a] ups IH] using rev_ind.
  - simpl. unfold stored. rewrite lookup_empty. simpl. lia.
  - rewrite applyUpdates_snoc, appended_snoc.
    destruct (decide (c = conversationId)) as [->|Hne].
    + rewrite stored_updateHistory_eq, prune_length by done.
      rewrite !length_app. simpl. lia.
    + rewrite stored_updateHistory_ne by done. by rewrite app_nil_r.
Qed.

(** What holds for a finite maximum that is not negative, stated with the
    integer [k] that is its ceiling. *)
Lemma bounded_by_ceiling q :
  (0 <= q)%Q ->
  (forall c u a histories,
      Z.of_nat (length (stored c (updateHistory (JsNumber.Finite q) c u a
                                                histories)))
      <= Qceiling q)
  /\ (forall (ups : list Update) conversationId,
        let h := stored conversationId
                   (applyUpdates (JsNumber.Finite q) ups ∅) in
        let log := appended conversationId ups in
        Z.of_nat (length h) <= Qceiling q
        /\ h = drop (length log - Z.to_nat (Qceiling q)) log).
Proof.
  intros Hq. pose proof (Qceiling_nonneg q Hq) as Hmax. split.
  - intros c u a histories. rewrite stored_updateHistory_eq.
    rewrite prune_length by done. lia.
  - intros ups conversationId h log.
    pose proof (applyUpdates_suffix (JsNumber.Finite q) conversationId ups)
      as Hs.
    pose proof (applyUpdates_length q conversationId ups Hmax) as Hl.
    fold h in Hs, Hl. fold log in Hs, Hl.
    split; [lia |].
    destruct Hs as [k Hk].
    assert (Hlen : (length log - Z.to_nat (Qceiling q))%nat = length k).
    { rewrite Hk, length_app in Hl. rewrite Hk, length_app. lia. }
    rewrite Hlen, Hk. by rewrite drop_app_length.
Qed.

(** ** C6: the stored list is a suffix of what was appended, and how long
    it can be *)

(** C6, counterexample.  [Config] accepts a maximum of 2.5 (it is a number
    greater than 0).  After two updates of one conversation the list has 4
    messages, [4 > 2.5], and [splice(0, 1.5)] removes one of them: 3
    messages stay, which is more than the configured maximum. *)
Lemma updateHistory_exceeds_fractional_maximum :
  let u1 := {| role := user; content := "q1" |} in
  let a1 := {| role := assistant; content := "r1" |} in
  let u2 := {| role := user; content := "q2" |} in
  let a2 := {| role := assistant; content := "r2" |} in
  let maximum := JsNumber.Finite (5 # 2) in
  let h := stored "c" (applyUpdates maximum [("c", u1, a1); ("c", u2, a2)] ∅) in
  JsNumber.leb maximum (JsNumber.ofZ 0) = false
  /\ h = [a1; u2; a2]
  /\ JsNumber.leb (JsNumber.ofZ (Z.of_nat (length h))) maximum = false
  /\ JsNumber.ltb maximum (JsNumber.ofZ (Z.of_nat (length h))) = true.
Proof. repeat split; reflexivity. Qed.

(** C6, amended.  For every maximum the manager can be given, after any
    [updateHistory] call, from any state, the list stored for that
    conversation is a suffix of the previous list followed by the two new
    messages, and after any sequence of [updateHistory] calls on a new
    manager the list stored for any conversation is a suffix of the
    sequence of all messages appended to that conversation.  For a finite
    maximum that is not negative the stored list has at most as many
    messages as the maximum rounded up to an integer, and after a sequence
    of updates on a new manager it has at least as many as the maximum
    rounded down, or all that were appended when they are fewer.  So for an
    integer maximum, as the default 20 is, the length is at most the
    maximum, and the stored list is exactly the last [maximum] messages
    appended. *)
Theorem updateHistory_bounded_suffix (maxHistoryLength : JsNumber.number) :
  (forall c u a histories,
      stored c (updateHistory maxHistoryLength c u a histories)
      `suffix_of` stored c histories ++ [u; a])
  /\ (forall (ups : list Update) conversationId,
        stored conversationId (applyUpdates maxHistoryLength ups ∅)
        `suffix_of` appended conversationId ups)
  /\ (forall q,
        maxHistoryLength = JsNumber.Finite q -> (0 <= q)%Q ->
        (forall c u a histories,
            Z.of_nat (length (stored c (updateHistory maxHistoryLength c u a
                                                      histories)))
            <= Qceiling q)
        /\ (forall (ups : list Update) conversationId,
              let h := stored conversationId
                         (applyUpdates maxHistoryLength ups ∅) in
              let log := appended conversationId ups in
              Z.min (Z.of_nat (length log)) (Qfloor q)
              <= Z.of_nat (length h) <= Qceiling q))
  /\ (forall n,
        maxHistoryLength = JsNumber.ofZ n -> 0 <= n ->
        (forall c u a histories,
            Z.of_nat (length (stored c (updateHistory maxHistoryLength c u a
                                                      histories)))
            <= n)
        /\ (forall (ups : list Update) conversationId,
              let h := stored conversationId
                         (applyUpdates maxHistoryLength ups ∅) in
              let log := appended conversationId ups in
              Z.of_nat (length h) <= n
              /\ h = drop (length log - Z.to_nat n) log)).
Proof.
  split; [|split; [|split]].
  - intros c u a histories. rewrite stored_updateHistory_eq.
    apply prune_suffix.
  - intros ups conversationId. apply applyUpdates_suffix.
  - intros q -> Hq. split; [by apply bounded_by_ceiling |].
    intros ups conversationId h log. unfold h, log.
    rewrite applyUpdates_length by (by apply Qceiling_nonneg).
    pose proof (Qfloor_le_ceiling q). lia.
  - intros n -> Hn.
    assert (Hq : (0 <= inject_Z n)%Q).
    { change 0%Q with (inject_Z 0). by rewrite <- Zle_Qle. }
    pose proof (bounded_by_ceiling (inject_Z n) Hq) as H.
    by rewrite Qceiling_Z in H.
Qed.

Lemma updateHistory_bounded_suffix_witness :
  let u1 := {| role := user; content := "q1" |} in
  let a1 := {| role := assistant; content := "r1" |} in
  let u2 := {| role := user; content := "q2" |} in
  let a2 := {| role := assistant; content := "r2" |} in
  let ups := [("c", u1, a1); ("c", u2, a2)] in
  let h := stored "c" (applyUpdates 2 ups ∅) in
  let h' := stored "c" (applyUpdates (JsNumber.Finite (5 # 2)) ups ∅) in
  (Z.of_nat (length h) <= 2
   /\ h = drop (length (appended "c" ups) - Z.to_nat 2) (appended "c" ups))
  /\ h = [u2; a2]
  /\ Z.min (Z.of_nat (length (appended "c" ups))) (Qfloor (5 # 2))
     <= Z.of_nat (length h') <= Qceiling (5 # 2)
  /\ Qfloor (5 # 2) = 2 /\ Qceiling (5 # 2) = 3.
Proof.
  split; [|split; [reflexivity | split; [|split; reflexivity]]].
  - exact (proj2 (proj2 (proj2 (proj2 (updateHistory_bounded_suffix 2)))
                    2 eq_refl ltac:(lia))
             [("c", {| role := user; content := "q1" |},
                    {| role := assistant; content := "r1" |});
              ("c", {| role := user; content := "q2" |},
                    {| role := assistant; content := "r2" |})] "c").
  - exact (proj2 (proj1 (proj2 (proj2 (updateHistory_bounded_suffix
                                         (JsNumber.Finite (5 # 2)))))
                    (5 # 2) eq_refl ltac:(discriminate))
             [("c", {| role := user; content := "q1" |},
                    {| role := assistant; content := "r1" |});
              ("c", {| role := user; content := "q2" |},
                    {| role := assistant; content := "r2" |})] "c").
Defined.

(** ** C7: how many messages one update removes *)

(** The lists stored by a manager that is driven through its own calls all
    have even length when the maximum, rounded up, is even. *)
Lemma prune_even q history :
  0 <= Qceiling q -> Z.Even (Qceiling q) ->
  Z.Even (Z.of_nat (length history)) ->
  Z.Even (Z.of_nat (length (prune (JsNumber.Finite q) history).1))
  /\ Z.Even (Z.of_nat (length (prune (JsNumber.Finite q) history).2)).
Proof.
  intros Hmax [m Hm] [n Hn].
  rewrite prune_removed_length, prune_length by done.
  split.
  - destruct (Z.max_spec 0 (Z.of_nat (length history) - Qceiling q))
      as [[_ ->]|[_ ->]].
    + exists (n - m). lia.
    + by exists 0.
  - destruct (Z.min_spec (Z.of_nat (length history)) (Qceiling q))
      as [[_ ->]|[_ ->]].
    + by exists n.
    + by exists m.
Qed.

Lemma call_even q c conversationId histories :
  0 <= Qceiling q -> Z.Even (Qceiling q) ->
  (forall i, Z.Even (Z.of_nat (length (stored i histories)))) ->
  Z.Even (Z.of_nat (length (stored conversationId
                              (call (JsNumber.Finite q) c histories)))).
Proof.
  intros Hmax Hev Hall. destruct c as [c|c u a|c|]; simpl.
  - by rewrite stored_getHistory.
  - destruct (decide (c = conversationId)) as [->|Hne].
    + rewrite stored_updateHistory_eq. apply prune_even; [done..|].
      rewrite length_app. simpl. destruct (Hall conversationId) as [n Hn].
      exists (n + 1). lia.
    + by rewrite stored_updateHistory_ne.
  - unfold clearHistory, stored.
    destruct (decide (c = conversationId)) as [->|Hne].
    + rewrite lookup_delete_eq. by exists 0.
    + rewrite lookup_delete_ne by done. apply Hall.
  - unfold clearAll, stored. rewrite lookup_empty. by exists 0.
Qed.

Lemma calls_even q cs :
  0 <= Qceiling q -> Z.Even (Qceiling q) ->
  forall conversationId,
  Z.Even (Z.of_nat (length (stored conversationId
                              (calls (JsNumber.Finite q) cs ∅)))).
Proof.
  intros Hmax Hev. induction cs as [|c cs IH] using rev_ind; intros i.
  - simpl. unfold stored. rewrite lookup_empty. by exists 0.
  - unfold calls in *. rewrite fold_left_app. simpl. by apply call_even.
Qed.

(** C7, counterexample.  With maximum 3, the second update of a
    conversation appends to [[u1; a1]], reaches length 4 and removes exactly
    one message, the user message [u1]: the stored list then starts with
    the assistant message [a1], whose user message is gone. *)
Lemma updateHistory_trims_one_message :
  let u1 := {| role := user; content := "q1" |} in
  let a1 := {| role := assistant; content := "r1" |} in
  let u2 := {| role := user; content := "q2" |} in
  let a2 := {| role := assistant; content := "r2" |} in
  let histories := updateHistory (JsNumber.ofZ 3) "c" u1 a1 ∅ in
  trimmed (JsNumber.ofZ 3) "c" u2 a2 histories = [u1]
  /\ Z.even (Z.of_nat (length (trimmed (JsNumber.ofZ 3) "c" u2 a2 histories)))
     = false
  /\ stored "c" (updateHistory (JsNumber.ofZ 3) "c" u2 a2 histories)
     = [a1; u2; a2].
Proof. repeat split; reflexivity. Qed.

(** C7, amended.  For every maximum, every state and every [updateHistory]
    call, the removed messages followed by the new stored list are the old
    list followed by the two new messages.  With [length] the stored length
    before the call, a finite maximum that is not negative has the call
    remove at least [max(0, length + 2 - k)] messages, [k] being the
    maximum rounded up to an integer, and at most that with the maximum
    rounded down; so for an integer maximum it removes exactly
    [max(0, length + 2 - maximum)].  An infinite maximum removes none.  The
    number removed is not even in general.  It is even, so that whole user
    and assistant pairs are removed, when the maximum is an even integer
    (as the default 20 is) and the manager has only been driven through its
    own calls since it was created. *)
Theorem updateHistory_trims_pairs
    (maxHistoryLength : JsNumber.number) (c : string)
    (u a : OpenRouterMessage)
    (histories : gmap string (list OpenRouterMessage)) :
  let removed := trimmed maxHistoryLength c u a histories in
  let before := Z.of_nat (length (stored c histories)) in
  removed ++ stored c (updateHistory maxHistoryLength c u a histories)
  = stored c histories ++ [u; a]
  /\ (forall q,
        maxHistoryLength = JsNumber.Finite q -> (0 <= q)%Q ->
        Z.max 0 (before + 2 - Qceiling q)
        <= Z.of_nat (length removed)
        <= Z.max 0 (before + 2 - Qfloor q))
  /\ (forall n,
        maxHistoryLength = JsNumber.ofZ n -> 0 <= n ->
        Z.of_nat (length removed) = Z.max 0 (before + 2 - n)
        /\ (Z.Even n ->
            (exists cs, histories = calls maxHistoryLength cs ∅) ->
            Z.Even (Z.of_nat (length removed))))
  /\ (maxHistoryLength = JsNumber.PosInfinity -> removed = []).
Proof.
  intros removed before. subst removed before. unfold trimmed.
  rewrite getHistory_stored, stored_updateHistory_eq.
  assert (Hfin : forall q,
             maxHistoryLength = JsNumber.Finite q -> (0 <= q)%Q ->
             Z.of_nat (length (prune maxHistoryLength
                                 (stored c histories ++ [u; a])).1)
             = Z.max 0 (Z.of_nat (length (stored c histories)) + 2
                        - Qceiling q)).
  { intros q -> Hq. rewrite prune_removed_length by (by apply Qceiling_nonneg).
    rewrite length_app. simpl. lia. }
  split; [apply prune_partition |]. split; [|split].
  - intros q Hmax Hq. rewrite (Hfin q Hmax Hq).
    pose proof (Qfloor_le_ceiling q). lia.
  - intros n Hn H0.
    assert (Hq : (0 <= inject_Z n)%Q).
    { change 0%Q with (inject_Z 0). by rewrite <- Zle_Qle. }
    split.
    + rewrite (Hfin (inject_Z n) Hn Hq). by rewrite Qceiling_Z.
    + intros Hev [cs ->]. subst maxHistoryLength.
      apply prune_even; rewrite ?Qceiling_Z; [done..|].
      rewrite length_app. simpl.
      destruct (calls_even (inject_Z n) cs) with (conversationId := c)
        as [m Hm]; rewrite ?Qceiling_Z; [done..|].
      exists (m + 1). unfold JsNumber.ofZ. lia.
  - intros ->. by rewrite prune_PosInfinity.
Qed.

(** The count at the odd maximum 3, where one message goes, and the pairs
    at the even maximum 2. *)
Lemma updateHistory_trims_pairs_witness :
  let u1 := {| role := user; content := "q1" |} in
  let a1 := {| role := assistant; content := "r1" |} in
  let u2 := {| role := user; content := "q2" |} in
  let a2 := {| role := assistant; content := "r2" |} in
  let odd := updateHistory (JsNumber.ofZ 3) "c" u1 a1 ∅ in
  let even := calls (JsNumber.ofZ 2) [CallUpdate "c" u1 a1] ∅ in
  Z.of_nat (length (trimmed (JsNumber.ofZ 3) "c" u2 a2 odd))
  = Z.max 0 (Z.of_nat (length (stored "c" odd)) + 2 - 3)
  /\ trimmed (JsNumber.ofZ 3) "c" u2 a2 odd = [u1]
  /\ Z.Even (Z.of_nat (length (trimmed (JsNumber.ofZ 2) "c" u2 a2 even)))
  /\ trimmed (JsNumber.ofZ 2) "c" u2 a2 even = [u1; a1].
Proof.
  split; [|split; [reflexivity | split; [|reflexivity]]].
  - exact (proj1 (proj1 (proj2 (proj2
             (updateHistory_trims_pairs (JsNumber.ofZ 3) "c"
                {| role := user; content := "q2" |}
                {| role := assistant; content := "r2" |}
                (updateHistory (JsNumber.ofZ 3) "c"
                   {| role := user; content := "q1" |}
                   {| role := assistant; content := "r1" |} ∅))))
             3 eq_refl ltac:(lia))).
  - exact (proj2 (proj1 (proj2 (proj2
             (updateHistory_trims_pairs (JsNumber.ofZ 2) "c"
                {| role := user; content := "q2" |}
                {| role := assistant; content := "r2" |}
                (calls (JsNumber.ofZ 2)
                   [CallUpdate "c" {| role := user; content := "q1" |}
                                   {| role := assistant; content := "r1" |}]
                   ∅))))
             2 eq_refl ltac:(lia))
             (ex_intro _ 1 eq_refl)
             (ex_intro _ [CallUpdate "c" {| role := user; content := "q1" |}
                            {| role := assistant; content := "r1" |}]
                       eq_refl)).
Defined.

(** ** C9: [hasHistory] and the empty list that [getHistory] creates *)

(** C9.  [hasHistory] answers true exactly when a list is stored for the
    conversation and that list is not empty; [getHistory] on a conversation
    with no stored list returns the empty list and stores it, and
    [hasHistory] still answers false afterwards. *)
Theorem hasHistory_nonempty
    (conversationId : string)
    (histories : gmap string (list OpenRouterMessage)) :
  (hasHistory conversationId histories = true
   <-> exists history,
        histories !! conversationId = Some history /\ history <> [])
  /\ (histories !! conversationId = None ->
      (getHistory conversationId histories).1 = []
      /\ (getHistory conversationId histories).2 !! conversationId = Some []
      /\ hasHistory conversationId (getHistory conversationId histories).2
         = false).
Proof.
  split.
  - unfold hasHistory. destruct (histories !! conversationId) as [h|].
    + rewrite Z.gtb_ltb. split.
      * intros H. exists h. split; [done |]. intros ->. discriminate.
      * intros (h' & [= <-] & Hne). destruct h; [done | reflexivity].
    + split; [discriminate | intros (h & H & _); discriminate].
  - intros Hnone. unfold getHistory, hasHistory. rewrite Hnone. simpl.
    by rewrite lookup_insert_eq.
Qed.

Lemma hasHistory_nonempty_witness :
  (getHistory "fresh" (∅ : gmap string (list OpenRouterMessage))).1 = []
  /\ (getHistory "fresh" (∅ : gmap string (list OpenRouterMessage))).2
     !! "fresh" = Some []
  /\ hasHistory "fresh"
       (getHistory "fresh" (∅ : gmap string (list OpenRouterMessage))).2
     = false.
Proof.
  exact (proj2 (hasHistory_nonempty "fresh" ∅) (lookup_empty "fresh")).
Defined.

End HistoryManagerFacts.

(** ** Facts about the model selector *)

Module ModelSelectorFacts.
Import Types JsString JsStringFacts ModelSelector.

Lemma someIncluded_intro keywords description keyword :
  In keyword keywords -> includes description keyword = true ->
  someIncluded keywords description = true.
Proof.
  intros Hin Hinc. unfold someIncluded. apply existsb_exists. eauto.
Qed.

Lemma someIncluded_none keywords description :
  (forall keyword, In keyword keywords ->
                   includes description keyword = false) ->
  someIncluded keywords description = false.
Proof.
  intros H. unfold someIncluded.
  destruct (existsb _ keywords) eqn:E; [|done].
  apply existsb_exists in E as (k & Hin & Hk). rewrite (H k Hin) in Hk.
  discriminate.
Qed.

(** ** C8: the selector is a first-match keyword classifier *)

(** C8.  [selectModel] is the first-match classifier over the four ordered
    keyword sets applied to the lower-cased text, hence a function of the
    lower-cased text alone; a text that contains "refactor this function"
    gets [gpt-5-codex]; the text "budget" gets [grok-code-fast-1]; the
    empty text, and any text whose lower-casing contains none of the
    keywords, gets the default descriptor, [gpt-5-codex]. *)
Theorem selectModel_first_match :
  (forall text, selectModel text = firstMatch (toLowerCase text))
  /\ (forall text text',
        toLowerCase text = toLowerCase text' ->
        selectModel text = selectModel text')
  /\ (forall text,
        includes text "refactor this function" = true ->
        selectModel text = AVAILABLE_MODELS GPT_5_CODEX
        /\ id (selectModel text) = "openai/gpt-5-codex")
  /\ selectModel "budget" = AVAILABLE_MODELS GROK_CODE_FAST_1
  /\ id (selectModel "budget") = "x-ai/grok-code-fast-1"
  /\ selectModel "" = defaultModel
  /\ (forall text,
        (forall keyword,
            In keyword (codingKeywords ++ complexKeywords
                        ++ quickKeywords ++ budgetKeywords) ->
            includes (toLowerCase text) keyword = false) ->
        selectModel text = defaultModel)
  /\ defaultModel = AVAILABLE_MODELS GPT_5_CODEX.
Proof.
  assert (Hfirst : forall text, selectModel text = firstMatch (toLowerCase text)).
  { intros text. unfold selectModel, firstMatch, strategies, isCodingTask,
      isComplexAnalysisTask, isQuickQuestionTask, isBudgetTask.
    cbn [find fst snd].
    repeat (destruct (someIncluded _ _); [reflexivity |]). reflexivity. }
  split; [exact Hfirst |]. split.
  { intros text text' H. by rewrite !Hfirst, H. }
  split.
  { intros text H.
    assert (Hc : isCodingTask (toLowerCase text) = true).
    { apply (someIncluded_intro _ _ "refactor"); [simpl; tauto |].
      apply (includes_trans _ "refactor this function").
      - by apply toLowerCase_includes.
      - reflexivity. }
    unfold selectModel. by rewrite Hc. }
  split; [reflexivity |]. split; [reflexivity |]. split; [reflexivity |].
  split; [|reflexivity].
  intros text H. unfold selectModel, isCodingTask, isComplexAnalysisTask,
    isQuickQuestionTask, isBudgetTask.
  rewrite !someIncluded_none; [done | | | |];
    intros k Hk; apply H; rewrite !in_app_iff; tauto.
Qed.

Lemma selectModel_first_match_witness :
  selectModel "Please REFACTOR this function" = selectModel "please refactor this function"
  /\ id (selectModel "could you refactor this function?") = "openai/gpt-5-codex".
Proof.
  split.
  - exact (proj1 (proj2 selectModel_first_match)
             "Please REFACTOR this function" "please refactor this function"
             eq_refl).
  - exact (proj2 (proj1 (proj2 (proj2 selectModel_first_match))
             "could you refactor this function?" eq_refl)).
Defined.

End ModelSelectorFacts.

(** ** Facts about the consultation service *)

Module ConsultationServiceFacts.
Import Types JsString JsStringFacts ConsultationService.
Import ConsultationServiceViews.
Local Open Scope Z_scope.

Section ServiceFacts.
Context {U : Type}.
Variable consultAI :
  string -> option string -> list OpenRouterMessage -> U ->
  (Error + ConsultResult) * U.
Variable requestsPerMinute : JsNumber.number.
Variable maxHistoryLength : JsNumber.number.

Local Abbreviation State := (ConsultationService.State U).
Local Abbreviation Batch := (@ConsultationService.Batch U).
Local Abbreviation clearIfRequested :=
  (@ConsultationService.clearIfRequested U).
Local Abbreviation consultOne := (ConsultationService.consultOne consultAI).
Local Abbreviation batchState :=
  (ConsultationService.batchState requestsPerMinute).
Local Abbreviation consultMultipleModels :=
  (ConsultationService.consultMultipleModels
     consultAI requestsPerMinute maxHistoryLength).
Local Abbreviation consult :=
  (ConsultationService.consult consultAI requestsPerMinute maxHistoryLength).
Local Abbreviation handleConsultAI :=
  (ConsultationService.handleConsultAI
     consultAI requestsPerMinute maxHistoryLength).

(** *** The multi-model loop *)

Lemma consultOne_pushes args b modelId :
  exists entry,
    results (consultOne args b modelId) = results b ++ [entry]
    /\ entry_model entry = modelId
    /\ totalPromptTokens (consultOne args b modelId)
       = totalPromptTokens b + default 0 (prompt_tokens (entry_usage entry))
    /\ totalCompletionTokens (consultOne args b modelId)
       = totalCompletionTokens b
         + default 0 (completion_tokens (entry_usage entry))
    /\ totalTokens (consultOne args b modelId)
       = totalTokens b + default 0 (total_tokens (entry_usage entry)).
Proof.
  unfold consultOne.
  destruct (truthy (conversation_id args)) as [conversationId|].
  - destruct (HistoryManager.getHistory _ _) as [history hs].
    destruct (consultAI _ _ _ _) as [[error|result] u].
    + exists (errorEntry modelId error). simpl. repeat split; lia.
    + exists (resultEntry modelId result false). by simpl.
  - destruct (checkCache _ _ _) as [cachedResult|].
    + exists (resultEntry modelId cachedResult true). by simpl.
    + destruct (consultAI _ _ _ _) as [[error|result] u].
      * exists (errorEntry modelId error). simpl. repeat split; lia.
      * exists (resultEntry modelId result false). by simpl.
Qed.

Lemma batch_loop args requested :
  forall b,
  exists tail,
    results (fold_left (consultOne args) requested b) = results b ++ tail
    /\ map entry_model tail = requested
    /\ totalPromptTokens (fold_left (consultOne args) requested b)
       = totalPromptTokens b + sumTokens prompt_tokens tail
    /\ totalCompletionTokens (fold_left (consultOne args) requested b)
       = totalCompletionTokens b + sumTokens completion_tokens tail
    /\ totalTokens (fold_left (consultOne args) requested b)
       = totalTokens b + sumTokens total_tokens tail.
Proof.
  induction requested as [|modelId rest IH]; intros b.
  - exists []. simpl. rewrite app_nil_r. repeat split; lia.
  - destruct (consultOne_pushes args b modelId)
      as (entry & Hr & Hm & Hp & Hc & Ht).
    destruct (IH (consultOne args b modelId))
      as (tail & Hr' & Hm' & Hp' & Hc' & Ht').
    exists (entry :: tail). simpl.
    rewrite Hr', Hr, <- app_assoc, Hm, Hm', Hp', Hc', Ht', Hp, Hc, Ht.
    simpl. repeat split; lia.
Qed.

(** One iteration of the loop, told by what it finds in the cache and what
    the upstream client answers. *)
Lemma consultOne_iteration args (b : Batch) modelId :
  match cachedUnder args (state b) (resolveBatchModel modelId) with
  | Some cachedResult =>
      results (consultOne args b modelId)
      = results b ++ [{| entry_model := modelId;
                         entry_response := response cachedResult;
                         entry_usage := usage cachedResult;
                         entry_cached := true |}]
      /\ upstream (state (consultOne args b modelId)) = upstream (state b)
  | None =>
      results (consultOne args b modelId)
      = results b
        ++ [recorded modelId
              (consultAI (prompt args) (resolveBatchModel modelId)
                 (historyFor args (state b)) (upstream (state b))).1]
      /\ upstream (state (consultOne args b modelId))
         = (consultAI (prompt args) (resolveBatchModel modelId)
              (historyFor args (state b)) (upstream (state b))).2
  end.
Proof.
  unfold cachedUnder, historyFor, ConsultationService.consultOne.
  destruct (truthy (conversation_id args)) as [c|].
  - rewrite <- (HistoryManagerFacts.getHistory_stored c).
    destruct (HistoryManager.getHistory _ _) as [history hs]. simpl.
    by destruct (consultAI _ _ _ _) as [[error|result] u].
  - unfold checkCache.
    destruct (cache (state b) !! _) as [cachedResult|]; [done |].
    by destruct (consultAI _ _ _ _) as [[error|result] u].
Qed.

(** The entry that the iteration at a position pushes is the entry found
    at that position when the loop has ended. *)
Lemma batch_position args (start : Batch) pre modelId post entry :
  results start = [] ->
  results (consultOne args (fold_left (consultOne args) pre start) modelId)
  = results (fold_left (consultOne args) pre start) ++ [entry] ->
  results (fold_left (consultOne args) (pre ++ modelId :: post) start)
    !! length pre
  = Some entry.
Proof.
  intros Hstart Hone.
  destruct (batch_loop args pre start) as (tpre & Hrp & Hmp & _).
  destruct (batch_loop args post
              (consultOne args (fold_left (consultOne args) pre start) modelId))
    as (tpost & Hrq & _).
  rewrite fold_left_app. simpl. rewrite Hrq, Hone, Hrp, Hstart. simpl.
  assert (Hlen : length tpre = length pre) by (by rewrite <- Hmp, length_map).
  rewrite <- app_assoc, <- Hlen. simpl. by rewrite list_lookup_middle.
Qed.

(** The combined document starts with its title and holds the heading and
    the text of every entry. *)
Lemma combineResponses_holds (entries : list ModelEntry) :
  String.prefix ("# Multi-Model Consultation Results" +:+ newline +:+ newline)
                (combineResponses entries) = true
  /\ (forall (i : nat) entry,
        entries !! i = Some entry ->
        includes (combineResponses entries)
          ("## Model " +:+ pretty (i + 1)%nat +:+ ": " +:+ entry_model entry)
        = true
        /\ includes (combineResponses entries) (entry_response entry) = true).
Proof.
  unfold combineResponses. split.
  - rewrite fold_append. apply prefix_split. eexists. reflexivity.
  - intros i entry Hi.
    assert (Hsec : includes
              (fold_left (fun combined section => combined +:+ section)
                 (imap combineSection entries)
                 ("# Multi-Model Consultation Results" +:+ newline +:+ newline))
              (combineSection i entry) = true).
    { apply list_elem_of_split_length in Hi as (l1 & l2 & -> & ->).
      rewrite imap_app. cbn [imap]. rewrite Nat.add_0_r.
      match goal with
      | |- includes (fold_left _ (?l ++ ?x :: ?k) ?init) _ = true =>
          destruct (fold_append_middle l k x init) as (before & after & ->)
      end.
      apply includes_split. exists before, after. reflexivity. }
    split.
    + apply (includes_trans _ _ _ Hsec). apply includes_split.
      exists "",
        ((if entry_cached entry then " (cached)" else "")
           +:+ newline +:+ newline
         +:+ (entry_response entry +:+ newline +:+ newline)
         +:+ ("**Tokens used:** "
                +:+ pretty (default 0 (total_tokens (entry_usage entry)))
                +:+ newline +:+ newline)
         +:+ ("---" +:+ newline +:+ newline)).
      unfold combineSection. rewrite append_nil_l, !append_assoc. reflexivity.
    + apply (includes_trans _ _ _ Hsec). apply includes_split.
      exists ("## Model " +:+ pretty (i + 1)%nat +:+ ": " +:+ entry_model entry
                +:+ (if entry_cached entry then " (cached)" else "")
                +:+ newline +:+ newline),
        (newline +:+ newline
         +:+ ("**Tokens used:** "
                +:+ pretty (default 0 (total_tokens (entry_usage entry)))
                +:+ newline +:+ newline)
         +:+ ("---" +:+ newline +:+ newline)).
      unfold combineSection. rewrite !append_assoc. reflexivity.
Qed.

(** ** C2: a failing model does not fail the batch *)

(** C2.  For a multi-model consultation with a non-empty model list that
    passes the rate-limit check: the call returns a combined result instead
    of throwing.  The loop starts with the upstream client and the cache as
    the request found them, and for every model of the list, in order, at
    its position: unless a stateless request finds the model's result in
    the cache, the upstream client is called, in the state the previous
    model left it in, with the prompt, the resolved model id and the
    history of the conversation; when the call throws, the entry recorded
    for the model is the text "Error: " followed by the message of the
    error, with a usage of zero in every field, and the loop goes on with
    the next model in the state the failed call left; when it answers, the
    entry is the answer and its usage.  The returned usage totals are the
    sums of the entries' usage fields with a missing field counted as
    zero, to which the entry of a failed model adds zero.  The returned
    text starts with the title and holds, for every entry, its numbered
    heading with the model name and its text. *)
Theorem consultMultipleModels_isolates_failures
    (now : Z) (args : ConsultArgs) (s : State) (requested : list string) :
  models args = Some requested ->
  requested <> [] ->
  (RateLimiter.checkLimit requestsPerMinute now (rateLimitId args)
                          (limitMap s)).1 = RateLimiter.Allowed ->
  let start := startBatch (batchState now args s) in
  let b := fold_left (consultOne args) requested start in
  let combined := combineResponses (results b) in
  (consult now args s).1
  = inr {| model := "Multi-model: " +:+ join ", " requested;
           response := combined;
           usage :=
             {| prompt_tokens := Some (sumTokens prompt_tokens (results b));
                completion_tokens :=
                  Some (sumTokens completion_tokens (results b));
                total_tokens := Some (sumTokens total_tokens (results b)) |} |}
  /\ map entry_model (results b) = requested
  /\ upstream (state start) = upstream s
  /\ cache (state start) = cache s
  /\ (forall pre modelId post,
        requested = pre ++ modelId :: post ->
        let before := state (fold_left (consultOne args) pre start) in
        let after :=
          state (fold_left (consultOne args) (pre ++ [modelId]) start) in
        match cachedUnder args before (resolveBatchModel modelId) with
        | Some cachedResult =>
            results b !! length pre
            = Some {| entry_model := modelId;
                      entry_response := response cachedResult;
                      entry_usage := usage cachedResult;
                      entry_cached := true |}
            /\ upstream after = upstream before
        | None =>
            let call :=
              consultAI (prompt args) (resolveBatchModel modelId)
                        (historyFor args before) (upstream before) in
            results b !! length pre = Some (recorded modelId call.1)
            /\ upstream after = call.2
        end)
  /\ (forall modelId error,
        sumTokens prompt_tokens [recorded modelId (inl error)] = 0
        /\ sumTokens completion_tokens [recorded modelId (inl error)] = 0
        /\ sumTokens total_tokens [recorded modelId (inl error)] = 0)
  /\ String.prefix ("# Multi-Model Consultation Results" +:+ newline +:+ newline)
                   combined = true
  /\ (forall (i : nat) entry,
        results b !! i = Some entry ->
        includes combined
          ("## Model " +:+ pretty (i + 1)%nat +:+ ": " +:+ entry_model entry)
        = true
        /\ includes combined (entry_response entry) = true).
Proof.
  intros Hm Hne Hrl start b combined.
  destruct (batch_loop args requested start)
    as (tail & Hr & Hmap & Hp & Hc & Ht).
  fold b in Hr, Hp, Hc, Ht. simpl in Hr, Hp, Hc, Ht.
  split; [|split; [|split; [|split; [|split; [|split; [done |]]]]]].
  - unfold consult, consultMultipleModels. rewrite Hm.
    destruct requested as [|m0 rest]; [done |].
    revert Hr Hp Hc Ht. unfold combined, b, start, batchState.
    clear combined b start.
    destruct (RateLimiter.checkLimit _ _ _ _) as [o lm].
    simpl in Hrl. subst o. cbn [fst snd].
    intros Hr Hp Hc Ht. rewrite Hp, Hc, Ht, Hr. repeat f_equal; lia.
  - by rewrite Hr.
  - unfold start, ConsultationService.batchState, clearIfRequested. simpl.
    destruct (truthy (conversation_id args)); [|done].
    by destruct (default false (clear_history args)).
  - unfold start, ConsultationService.batchState, clearIfRequested. simpl.
    destruct (truthy (conversation_id args)); [|done].
    by destruct (default false (clear_history args)).
  - intros pre modelId post Hsplit before after.
    assert (Hafter : after
                     = state (consultOne args
                                (fold_left (consultOne args) pre start) modelId)).
    { unfold after. by rewrite fold_left_app. }
    pose proof (consultOne_iteration args
                  (fold_left (consultOne args) pre start) modelId) as Hit.
    fold before in Hit. rewrite Hafter. unfold b. rewrite Hsplit.
    destruct (cachedUnder args before (resolveBatchModel modelId))
      as [cachedResult|]; cbv zeta; destruct Hit as [Hres Hup];
      (split; [by apply batch_position | exact Hup]).
  - apply combineResponses_holds.
Qed.

(** ** C3: an empty model list *)

(** C3, amended.  A request whose model list is empty is not refused by
    [consult]: it is served exactly as the same request with no model list,
    on the single-model path.  The error "No models specified for
    multi-model consultation" is what [consultMultipleModels] itself throws
    for an empty list, before any side effect; [consult] calls it only with
    a non-empty list. *)
Theorem consult_empty_models_single_path
    (now : Z) (args : ConsultArgs) (s : State) :
  models args = Some [] ->
  consult now args s
  = consult now
      {| prompt := prompt args; arg_model := arg_model args; models := None;
         task_description := task_description args;
         conversation_id := conversation_id args;
         clear_history := clear_history args |} s
  /\ consultMultipleModels now args s
     = (inl (PlainError "No models specified for multi-model consultation"), s).
Proof.
  intros Hm. split.
  - unfold consult. rewrite Hm. reflexivity.
  - unfold consultMultipleModels. by rewrite Hm.
Qed.

(** ** C4: a model id that names no descriptor *)

Lemma consult_unknown_model now args s modelId :
  arg_model args = Some modelId ->
  ModelSelector.getModelById modelId = ModelSelector.Undefined ->
  (models args = None \/ models args = Some []) ->
  let r := consult now args s in
  let r' := consult now (withoutModel args) s in
  r.1 = r'.1 /\ upstream r.2 = upstream r'.2 /\ histories r.2 = histories r'.2
  /\ cache r.2 = cache r'.2 /\ limitMap r.2 = limitMap r'.2.
Proof.
  intros Hm Hu Hmodels r r'. subst r r'. unfold consult.
  cbn [withoutModel models prompt arg_model task_description conversation_id clear_history].
  assert (Hsel : (selectModel (Some modelId) (task_description args) (prompt args)).1
                 = (selectModel None (task_description args) (prompt args)).1).
  { unfold selectModel. destruct modelId as [|c m]; [done |].
    change (truthy (Some (String c m))) with (Some (String c m)).
    cbv beta iota. by rewrite Hu. }
  rewrite Hm.
  destruct (selectModel (Some modelId) _ _) as [sel ws].
  destruct (selectModel None _ _) as [sel' ws']. simpl in Hsel. subst sel'.
  change (rateLimitId (withoutModel args)) with (rateLimitId args).
  change (clearIfRequested (withoutModel args)) with (clearIfRequested args).
  destruct Hmodels as [-> | ->];
    (destruct (RateLimiter.checkLimit _ _ _ _) as [[|w] lm]; [|done];
     generalize (clearIfRequested args (setLimitMap lm s)); intros s1;
     destruct (truthy (conversation_id args)) as [conversationId|];
     cbn [warn histories upstream cache limitMap];
     [ destruct (HistoryManager.getHistory _ _) as [history hs];
       cbn [setHistories histories upstream cache limitMap];
       destruct (consultAI _ _ _ _) as [[error|result] u]; done
     | destruct (checkCache _ _ _) as [cachedResult|]; [done |];
       destruct (consultAI _ _ _ _) as [[error|result] u]; done ]).
Qed.

(** C4, amended.  A requested model id for which the table lookup yields
    nothing never makes model resolution fail.  On the single-model path
    the service logs the warning and selects a model automatically from the
    task description, or from the prompt when there is no task description,
    so the request is served as the same request without a model id.  In a
    multi-model batch there is no automatic selection: the id is sent to
    the upstream client as it was given.  The iteration of the loop for
    that id, from any state of the loop, looks into the cache under the id
    as given and calls the upstream client with the id as given, and what
    it records is the outcome of that call; a batch of that one id returns
    the document made of that one entry. *)
Theorem unknown_model_resolution
    (now : Z) (args : ConsultArgs) (s : State) (modelId : string) :
  ModelSelector.getModelById modelId = ModelSelector.Undefined ->
  (forall taskDescription prompt,
      (modelId <> "" ->
       selectModel (Some modelId) taskDescription prompt
       = (Some (id (ModelSelector.selectModel
                      (default prompt (truthy taskDescription)))),
          ["Invalid model ID: " +:+ modelId +:+ ". Using auto-selection."]))
      /\ (selectModel (Some modelId) taskDescription prompt).1
         = (selectModel None taskDescription prompt).1)
  /\ resolveBatchModel modelId = Some modelId
  /\ (forall b : Batch,
        match cachedUnder args (state b) (Some modelId) with
        | Some cachedResult =>
            results (consultOne args b modelId)
            = results b ++ [{| entry_model := modelId;
                               entry_response := response cachedResult;
                               entry_usage := usage cachedResult;
                               entry_cached := true |}]
            /\ upstream (state (consultOne args b modelId))
               = upstream (state b)
        | None =>
            let call :=
              consultAI (prompt args) (Some modelId)
                        (historyFor args (state b)) (upstream (state b)) in
            results (consultOne args b modelId)
            = results b ++ [recorded modelId call.1]
            /\ upstream (state (consultOne args b modelId)) = call.2
        end)
  /\ (models args = Some [modelId] ->
      (RateLimiter.checkLimit requestsPerMinute now (rateLimitId args)
                              (limitMap s)).1 = RateLimiter.Allowed ->
      let s1 := batchState now args s in
      cachedUnder args s1 (Some modelId) = None ->
      let call :=
        consultAI (prompt args) (Some modelId) (historyFor args s1)
                  (upstream s) in
      exists result,
        (consult now args s).1 = inr result
        /\ response result = combineResponses [recorded modelId call.1]
        /\ upstream (consult now args s).2 = call.2)
  /\ (arg_model args = Some modelId ->
      (models args = None \/ models args = Some []) ->
      let r := consult now args s in
      let r' := consult now (withoutModel args) s in
      r.1 = r'.1 /\ upstream r.2 = upstream r'.2
      /\ histories r.2 = histories r'.2
      /\ cache r.2 = cache r'.2 /\ limitMap r.2 = limitMap r'.2).
Proof.
  intros Hu.
  assert (Hres : resolveBatchModel modelId = Some modelId).
  { unfold resolveBatchModel. by rewrite Hu. }
  assert (Hit : forall b : Batch,
             match cachedUnder args (state b) (Some modelId) with
             | Some cachedResult =>
                 results (consultOne args b modelId)
                 = results b ++ [{| entry_model := modelId;
                                    entry_response := response cachedResult;
                                    entry_usage := usage cachedResult;
                                    entry_cached := true |}]
                 /\ upstream (state (consultOne args b modelId))
                    = upstream (state b)
             | None =>
                 let call :=
                   consultAI (prompt args) (Some modelId)
                             (historyFor args (state b)) (upstream (state b)) in
                 results (consultOne args b modelId)
                 = results b ++ [recorded modelId call.1]
                 /\ upstream (state (consultOne args b modelId)) = call.2
             end).
  { intros b. pose proof (consultOne_iteration args b modelId) as H.
    by rewrite Hres in H. }
  split; [|split; [exact Hres | split; [exact Hit | split]]].
  - intros taskDescription prompt. split.
    + intros Hne. unfold selectModel.
      destruct modelId as [|c m]; [done |].
      change (truthy (Some (String c m))) with (Some (String c m)).
      cbv beta iota. by rewrite Hu.
    + unfold selectModel. destruct modelId as [|c m]; [done |].
      change (truthy (Some (String c m))) with (Some (String c m)).
      cbv beta iota. by rewrite Hu.
  - intros Hm Hrl s1 Hmiss call.
    pose proof (Hit (startBatch s1)) as Hone. simpl in Hone.
    rewrite Hmiss in Hone. cbv zeta in Hone. destruct Hone as [Hr Hup].
    assert (Hs1 : upstream s1 = upstream s).
    { unfold s1, ConsultationService.batchState, clearIfRequested. simpl.
      destruct (truthy (conversation_id args)); [|done].
      by destruct (default false (clear_history args)). }
    rewrite Hs1 in Hr, Hup. fold call in Hr, Hup.
    unfold consult, consultMultipleModels. rewrite Hm.
    revert Hr Hup. unfold s1, ConsultationService.batchState.
    destruct (RateLimiter.checkLimit _ _ _ _) as [o lm].
    simpl in Hrl. subst o. cbn [fst snd fold_left].
    intros Hr Hup. eexists. split; [reflexivity |]. cbn [response fst snd].
    rewrite Hr. split; [done |].
    by destruct (truthy (conversation_id args)).
  - intros Hm Hmodels. by apply (consult_unknown_model now args s modelId).
Qed.

(** *** The value of [consult] on a cache hit *)

Lemma consult_cache_hit_value
    (now : Z) (args : ConsultArgs) (s : State) (cachedResult : ConsultResult) :
  truthy (conversation_id args) = None ->
  (models args = None \/ models args = Some []) ->
  (RateLimiter.checkLimit requestsPerMinute now "global" (limitMap s)).1
  = RateLimiter.Allowed ->
  cache s !! generateCacheKey (prompt args)
               (selectModel (arg_model args) (task_description args)
                            (prompt args)).1
  = Some cachedResult ->
  consult now args s
  = (inr {| model :=
              interpolate (selectModel (arg_model args) (task_description args)
                                       (prompt args)).1 +:+ " (cached)";
            response := response cachedResult;
            usage := usage cachedResult |},
     warn (selectModel (arg_model args) (task_description args)
                       (prompt args)).2
          (setLimitMap
             (RateLimiter.checkLimit requestsPerMinute now
                "global" (limitMap s)).2 s)).
Proof.
  intros Hconv Hmodels Hrl Hhit. unfold ConsultationService.consult.
  assert (Hid : rateLimitId args = "global").
  { unfold rateLimitId. by rewrite Hconv. }
  destruct Hmodels as [-> | ->];
    rewrite Hid;
    destruct (RateLimiter.checkLimit _ _ _ _) as [o lm];
    simpl in Hrl; subst o;
    unfold ConsultationService.clearIfRequested; rewrite Hconv;
    destruct (selectModel _ _ _) as [sel ws]; simpl in *;
    unfold checkCache; simpl; rewrite Hhit; reflexivity.
Qed.

End ServiceFacts.

(** ** C5: a cache hit on the single-model path *)

(** C5, amended.  For a stateless request (no conversation id) that takes
    the single-model path (no model list, or an empty one), passes the
    rate-limit check and whose (resolved model, prompt prefix) key is in
    the cache: [consult] returns the cached response text and usage under
    the model label followed by " (cached)"; the upstream client is not
    called (its state is left as it was, and the outcome is the same
    whatever the upstream client would do), and the histories and the cache
    are left as they were; the tool handler then reports the cache-hit flag
    as true. *)
Theorem consult_cache_hit
    {U : Type}
    (consultAI consultAI' :
       string -> option string -> list OpenRouterMessage -> U ->
       (Error + ConsultResult) * U)
    (requestsPerMinute maxHistoryLength : JsNumber.number) (now : Z)
    (args : ConsultArgs) (s : State U) (cachedResult : ConsultResult) :
  truthy (conversation_id args) = None ->
  (models args = None \/ models args = Some []) ->
  (RateLimiter.checkLimit requestsPerMinute now "global" (limitMap s)).1
  = RateLimiter.Allowed ->
  let selectedModel :=
    (selectModel (arg_model args) (task_description args) (prompt args)).1 in
  cache s !! generateCacheKey (prompt args) selectedModel = Some cachedResult ->
  let r := consult consultAI requestsPerMinute maxHistoryLength now args s in
  r.1 = inr {| model := interpolate selectedModel +:+ " (cached)";
               response := response cachedResult;
               usage := usage cachedResult |}
  /\ upstream r.2 = upstream s
  /\ consult consultAI' requestsPerMinute maxHistoryLength now args s = r
  /\ histories r.2 = histories s
  /\ cache r.2 = cache s
  /\ (prompt args <> "" ->
      exists resp,
        (handleConsultAI consultAI requestsPerMinute maxHistoryLength
                         now args s).1 = inr resp
        /\ cached resp = true
        /\ resp_response resp = response cachedResult).
Proof.
  intros Hconv Hmodels Hrl selectedModel Hhit r.
  pose proof (consult_cache_hit_value consultAI requestsPerMinute
                maxHistoryLength now args s cachedResult
                Hconv Hmodels Hrl Hhit) as Hr.
  pose proof (consult_cache_hit_value consultAI' requestsPerMinute
                maxHistoryLength now args s cachedResult
                Hconv Hmodels Hrl Hhit) as Hr'.
  fold r in Hr. fold selectedModel in Hr, Hr'.
  split; [by rewrite Hr |]. split; [by rewrite Hr |].
  split; [by rewrite Hr, Hr' |]. split; [by rewrite Hr |].
  split; [by rewrite Hr |].
  intros Hp. unfold handleConsultAI. fold r. rewrite Hr.
  destruct (prompt args) as [|c p] eqn:Ep; [done |].
  eexists. split; [reflexivity |]. simpl. split; [|done].
  apply includes_trans with (k := " (cached)");
    [apply includes_suffix | reflexivity].
Qed.


(** The lookup of a name that the table only inherits is truthy and has no
    [id]: the service then carries [undefined] as the model id. *)
Example selectModel_inherited_member :
  ModelSelector.getModelById "constructor" = ModelSelector.InheritedMember
  /\ selectModel (Some "constructor") None "hello" = (None, [])
  /\ resolveBatchModel "toString" = None.
Proof. repeat split; reflexivity. Qed.

(** A batch of two models of which the second fails upstream: both get an
    entry, the second the error text with a usage of zero, and the totals
    are those of the first. *)
Lemma consultMultipleModels_isolates_failures_witness :
  let args := request "compare" (Some ["gpt-5-codex"; "grok-code-fast-1"]) in
  let b := fold_left (consultOne scriptedUpstream args)
             ["gpt-5-codex"; "grok-code-fast-1"]
             (startBatch (batchState 20 0 args emptyState)) in
  ((consult scriptedUpstream 20 20 0 args emptyState).1
   = inr {| model := "Multi-model: gpt-5-codex, grok-code-fast-1";
            response := combineResponses (results b);
            usage := {| prompt_tokens := Some 10;
                        completion_tokens := Some 0;
                        total_tokens := Some 15 |} |})
  /\ results b !! 1%nat
     = Some {| entry_model := "grok-code-fast-1";
               entry_response :=
                 "Error: OpenRouter API error: upstream unavailable";
               entry_usage := {| prompt_tokens := Some 0;
                                 completion_tokens := Some 0;
                                 total_tokens := Some 0 |};
               entry_cached := false |}
  /\ map entry_model (results b) = ["gpt-5-codex"; "grok-code-fast-1"]
  /\ includes (combineResponses (results b))
       "Error: OpenRouter API error: upstream unavailable" = true.
Proof.
  pose proof (consultMultipleModels_isolates_failures scriptedUpstream 20 20 0
                (request "compare" (Some ["gpt-5-codex"; "grok-code-fast-1"]))
                emptyState ["gpt-5-codex"; "grok-code-fast-1"]
                eq_refl ltac:(discriminate) eq_refl) as H.
  cbv zeta in H. destruct H as (H1 & H2 & _ & _ & H3 & _ & _ & H4).
  split; [|split; [|split]].
  - etrans; [exact H1 | reflexivity].
  - exact (proj1 (H3 ["gpt-5-codex"] "grok-code-fast-1" [] eq_refl)).
  - exact H2.
  - exact (proj2 (H4 1%nat _
                    (proj1 (H3 ["gpt-5-codex"] "grok-code-fast-1" [] eq_refl)))).
Defined.

(** C3, counterexample.  A request with an empty model list is served: the
    call returns the answer of the automatically selected model and no
    validation error. *)
Lemma consult_empty_models_is_served :
  models (request "ping" (Some [])) = Some []
  /\ (consult scriptedUpstream 20 20 0 (request "ping" (Some [])) emptyState).1
     = inr {| model := "openai/gpt-5-codex";
              response := "answer";
              usage := {| prompt_tokens := Some 10;
                          completion_tokens := None;
                          total_tokens := Some 15 |} |}
  /\ upstream
       (consult scriptedUpstream 20 20 0 (request "ping" (Some [])) emptyState).2
     = [Some "openai/gpt-5-codex"].
Proof. repeat split; reflexivity. Qed.

Lemma consult_empty_models_single_path_witness :
  consult scriptedUpstream 20 20 0 (request "ping" (Some [])) emptyState
  = consult scriptedUpstream 20 20 0 (request "ping" None) emptyState
  /\ consultMultipleModels scriptedUpstream 20 20 0
       (request "ping" (Some [])) emptyState
     = (inl (PlainError "No models specified for multi-model consultation"),
        emptyState).
Proof.
  exact (consult_empty_models_single_path scriptedUpstream 20 20 0
           (request "ping" (Some [])) emptyState eq_refl).
Defined.

(** C4, counterexample.  In a batch, the unknown id "nope" is what the
    upstream client is called with; automatic selection from the prompt
    would have chosen the Grok model, and is not consulted. *)
Lemma batch_sends_unknown_id_upstream :
  ModelSelector.getModelById "nope" = ModelSelector.Undefined
  /\ upstream
       (consult scriptedUpstream 20 20 0
          (request "a cheap budget option" (Some ["nope"])) emptyState).2
     = [Some "nope"]
  /\ (selectModel None None "a cheap budget option").1
     = Some "x-ai/grok-code-fast-1".
Proof. repeat split; reflexivity. Qed.

Lemma unknown_model_resolution_witness :
  selectModel (Some "nope") None "a cheap budget option"
  = (Some "x-ai/grok-code-fast-1",
     ["Invalid model ID: nope. Using auto-selection."])
  /\ resolveBatchModel "nope" = Some "nope"
  /\ (consult scriptedUpstream 20 20 0
        {| prompt := "ping"; arg_model := Some "nope"; models := None;
           task_description := None; conversation_id := None;
           clear_history := None |} emptyState).1
     = (consult scriptedUpstream 20 20 0 (request "ping" None) emptyState).1
  /\ upstream (consult scriptedUpstream 20 20 0
                 (request "a cheap budget option" (Some ["nope"]))
                 emptyState).2
     = (scriptedUpstream "a cheap budget option" (Some "nope") [] []).2.
Proof.
  pose proof (unknown_model_resolution scriptedUpstream 20 20 0
                {| prompt := "ping"; arg_model := Some "nope"; models := None;
                   task_description := None; conversation_id := None;
                   clear_history := None |}
                emptyState "nope" eq_refl) as (H1 & H2 & _ & _ & H3).
  split; [exact (proj1 (H1 None "a cheap budget option") ltac:(discriminate)) |].
  split; [exact H2 |].
  split; [exact (proj1 (H3 eq_refl (or_introl eq_refl))) |].
  pose proof (proj1 (proj2 (proj2 (proj2
                (unknown_model_resolution scriptedUpstream 20 20 0
                   (request "a cheap budget option" (Some ["nope"]))
                   emptyState "nope" eq_refl))))
                eq_refl eq_refl eq_refl) as H.
  cbv zeta in H. destruct H as (result & _ & _ & Hup). exact Hup.
Defined.

(** C5, counterexample.  With ceiling 1, a first stateless request "ping"
    is answered upstream and cached.  The same request one second later has
    its key in the cache, and the call throws the rate-limit error instead
    of returning the cached result. *)
Lemma cache_hit_behind_rate_limit :
  let s := afterPing 1 in
  truthy (conversation_id (request "ping" None)) = None
  /\ cache s !! generateCacheKey "ping" (selectModel None None "ping").1
     = Some pingAnswer
  /\ (consult scriptedUpstream 1 20 1000 (request "ping" None) s).1
     = inl (rateLimitError 59).
Proof. repeat split; reflexivity. Qed.

(** The same two requests under ceiling 20: the second is a cache hit, and
    the upstream client has been called once, by the first. *)
Lemma consult_cache_hit_witness :
  let r := consult scriptedUpstream 20 20 1000 (request "ping" None)
             (afterPing 20) in
  r.1 = inr {| model := "openai/gpt-5-codex (cached)";
               response := "answer";
               usage := usage pingAnswer |}
  /\ upstream r.2 = [Some "openai/gpt-5-codex"]
  /\ histories r.2 = ∅
  /\ cache r.2 = cache (afterPing 20).
Proof.
  pose proof (consult_cache_hit scriptedUpstream scriptedUpstream 20 20 1000
                (request "ping" None) (afterPing 20) pingAnswer
                eq_refl (or_introl eq_refl) eq_refl eq_refl) as H.
  cbv zeta in H. destruct H as (H1 & H2 & _ & H3 & H4 & _).
  split; [exact H1 |]. split; [exact H2 |]. split; [exact H3 | exact H4].
Defined.

End ConsultationServiceFacts.

(** ** More about the rate limiter: the counters it reports and its runs *)

Module RateLimiterRunFacts.
Import Types RateLimiter JsNumberFacts RateLimiterFacts RateLimiterRuns.
Local Open Scope Z_scope.

(** What is left of a ceiling that is a number (not [NaN]) is positive
    exactly when the count is not yet at or above the ceiling. *)
Lemma remaining_positive (rpm : JsNumber.number) (c : Z) :
  rpm <> JsNumber.NaN ->
  JsNumber.ltb 0 (JsNumber.max 0 (JsNumber.sub rpm c))
  = negb (JsNumber.leb rpm c).
Proof.
  intros Hnan. destruct rpm as [q| | |]; try done.
  unfold JsNumber.sub, JsNumber.max, JsNumber.ofZ, JsNumber.leb.
  destruct (Qle_bool q (inject_Z c)) eqn:E1.
  - apply Qle_bool_iff in E1.
    destruct (Qle_bool (inject_Z 0) (q - inject_Z c)) eqn:E2; simpl.
    + apply negb_false_iff. apply Qle_bool_iff.
      change (inject_Z 0) with 0%Q. lra.
    + reflexivity.
  - apply Qle_bool_false in E1.
    assert (E2 : Qle_bool (inject_Z 0) (q - inject_Z c) = true).
    { apply Qle_bool_iff. change (inject_Z 0) with 0%Q. lra. }
    rewrite E2. simpl. apply negb_true_iff. apply Qle_bool_false.
    change (inject_Z 0) with 0%Q. lra.
Qed.

Lemma positive_not_NaN (rpm : JsNumber.number) :
  JsNumber.ltb 0 rpm = true ->
  rpm <> JsNumber.NaN /\ JsNumber.leb rpm 0 = false.
Proof.
  destruct rpm as [q| | |]; try done. intros H. split; [done |].
  unfold JsNumber.ltb, JsNumber.ofZ in H. apply negb_true_iff in H. exact H.
Qed.

(** X1.  For a ceiling above 0, [checkLimit] lets a request through
    exactly when [getRemaining], read at the same instant, is positive. *)
Theorem checkLimit_iff_remaining
    (rpm : JsNumber.number) (now : Z) (identifier : string)
    (limitMap : gmap string RateLimitEntry) :
  JsNumber.ltb 0 rpm = true ->
  ((checkLimit rpm now identifier limitMap).1 = Allowed
   <-> JsNumber.ltb 0 (getRemaining rpm now identifier limitMap) = true).
Proof.
  intros Hrpm. destruct (positive_not_NaN rpm Hrpm) as [Hnan H0].
  unfold getRemaining, getCount, checkLimit.
  destruct (limitMap !! identifier) as [entry|].
  - destruct (now >? resetTime entry).
    + rewrite remaining_positive, H0 by done. split; done.
    + rewrite remaining_positive by done.
      destruct (JsNumber.leb rpm (count entry)); split; done.
  - rewrite remaining_positive, H0 by done. split; done.
Qed.

Lemma checkLimit_iff_remaining_witness :
  ((checkLimit 2 0 "conv" ∅).1 = Allowed
   <-> JsNumber.ltb 0 (getRemaining 2 0 "conv"
                         (∅ : gmap string RateLimitEntry)) = true)
  /\ ((checkLimit (JsNumber.Finite (3 # 2)) 1 "conv"
         (checkLimit (JsNumber.Finite (3 # 2)) 0 "conv" ∅).2).1 = Allowed
      <-> JsNumber.ltb 0
            (getRemaining (JsNumber.Finite (3 # 2)) 1 "conv"
               (checkLimit (JsNumber.Finite (3 # 2)) 0 "conv" ∅).2) = true).
Proof.
  split.
  - exact (checkLimit_iff_remaining 2 0 "conv" ∅ eq_refl).
  - exact (checkLimit_iff_remaining (JsNumber.Finite (3 # 2)) 1 "conv"
             (checkLimit (JsNumber.Finite (3 # 2)) 0 "conv" ∅).2 eq_refl).
Defined.


Lemma remaining_ofZ (n c : Z) :
  JsNumber.max 0 (JsNumber.sub n c) = JsNumber.ofZ (Z.max 0 (n - c)).
Proof. by rewrite sub_ofZ, max_ofZ. Qed.



(** *** Invariants of runs *)

Lemma checkLimit_countsBounded rpm now identifier limitMap :
  countsBounded rpm limitMap ->
  countsBounded rpm (checkLimit rpm now identifier limitMap).2.
Proof.
  intros Hinv i e. unfold checkLimit.
  destruct (limitMap !! identifier) as [entry|] eqn:E.
  - rewrite Z.gtb_ltb.
    destruct (Z.ltb_spec (resetTime entry) now); simpl.
    + destruct (decide (identifier = i)) as [->|Hne].
      * rewrite lookup_insert_eq. intros [= <-]. simpl. split; [lia | by left].
      * rewrite lookup_insert_ne by done. apply Hinv.
    + destruct (JsNumber.leb rpm (count entry)) eqn:Hge; simpl; [apply Hinv |].
      destruct (decide (identifier = i)) as [->|Hne].
      * rewrite lookup_insert_eq. intros [= <-]. simpl.
        pose proof (Hinv _ _ E) as [H1 _]. split; [lia |]. right.
        by replace (count entry + 1 - 1) with (count entry) by lia.
      * rewrite lookup_insert_ne by done. apply Hinv.
  - simpl. destruct (decide (identifier = i)) as [->|Hne].
    + rewrite lookup_insert_eq. intros [= <-]. simpl. split; [lia | by left].
    + rewrite lookup_insert_ne by done. apply Hinv.
Qed.

Lemma limiterCall_countsBounded rpm c limitMap :
  countsBounded rpm limitMap ->
  countsBounded rpm (limiterCall rpm c limitMap).2.
Proof.
  intros Hinv. destruct c as [now identifier|identifier|]; simpl.
  - pose proof (checkLimit_countsBounded rpm now identifier limitMap Hinv) as H.
    by destruct (checkLimit _ _ _ _).
  - intros i e. unfold reset. intros H.
    apply lookup_delete_Some in H as [_ H]. by apply (Hinv i).
  - intros i e. unfold resetAll. by rewrite lookup_empty.
Qed.

Lemma limiterCalls_countsBounded rpm cs :
  forall limitMap,
  countsBounded rpm limitMap ->
  countsBounded rpm (limiterCalls rpm cs limitMap).2.
Proof.
  induction cs as [|c cs IH]; intros limitMap Hinv; [done |].
  simpl. pose proof (limiterCall_countsBounded rpm c limitMap Hinv) as H1.
  destruct (limiterCall rpm c limitMap) as [o m1]. simpl in H1.
  specialize (IH m1 H1). by destruct (limiterCalls rpm cs m1).
Qed.

(** X3.  Whatever checks and resets a limiter has served since it was
    created, every stored count is at least 1, and a count above 1 was
    reached from a count that the check found below the ceiling.  So
    [getCount] is never negative; for a finite ceiling above 0 it is at
    most the ceiling rounded up to an integer; and for an integer ceiling
    of at least 1 it is at most the ceiling, and [getRemaining] is an
    integer between 0 and the ceiling. *)
Theorem limiter_counts_bounded
    (rpm : JsNumber.number) (cs : list LimiterCall) (now : Z)
    (identifier : string) :
  let limitMap := (limiterCalls rpm cs ∅).2 in
  countsBounded rpm limitMap
  /\ 0 <= getCount now identifier limitMap
  /\ (forall q,
        rpm = JsNumber.Finite q -> (0 < q)%Q ->
        getCount now identifier limitMap <= Qceiling q)
  /\ (forall n,
        rpm = JsNumber.ofZ n -> 1 <= n ->
        getCount now identifier limitMap <= n
        /\ exists r,
            getRemaining rpm now identifier limitMap = JsNumber.ofZ r
            /\ 0 <= r <= n).
Proof.
  intros limitMap.
  assert (Hinv : countsBounded rpm limitMap).
  { apply limiterCalls_countsBounded. intros i e. by rewrite lookup_empty. }
  split; [exact Hinv |].
  assert (H0 : 0 <= getCount now identifier limitMap).
  { unfold getCount. destruct (limitMap !! identifier) as [entry|] eqn:E; [|lia].
    pose proof (Hinv _ _ E) as [H1 _]. destruct (now >? resetTime entry); lia. }
  assert (Hq : forall q,
             rpm = JsNumber.Finite q -> (0 < q)%Q ->
             getCount now identifier limitMap <= Qceiling q).
  { intros q Hrpm Hpos. pose proof (Qceiling_pos q Hpos) as Hceil.
    unfold getCount. destruct (limitMap !! identifier) as [entry|] eqn:E; [|lia].
    destruct (now >? resetTime entry); [lia |].
    pose proof (Hinv _ _ E) as [H1 [H2 | H2]]; [lia |].
    rewrite Hrpm, leb_Finite_ofZ in H2. apply Z.leb_gt in H2. lia. }
  split; [exact H0 |]. split; [exact Hq |].
  intros n Hn H1.
  assert (Hc : getCount now identifier limitMap <= n).
  { assert (Hpos : (0 < inject_Z n)%Q).
    { change 0%Q with (inject_Z 0). rewrite <- Zlt_Qlt. lia. }
    pose proof (Hq (inject_Z n) Hn Hpos) as H. by rewrite Qceiling_Z in H. }
  split; [exact Hc |].
  exists (Z.max 0 (n - getCount now identifier limitMap)).
  subst rpm. unfold getRemaining. rewrite remaining_ofZ. split; [done | lia].
Qed.

Lemma limiter_counts_bounded_witness :
  let limitMap :=
    (limiterCalls 2 [Check 0 "a"; Check 1 "a"; Check 2 "a"; Reset "b"] ∅).2 in
  let limitMap' :=
    (limiterCalls (JsNumber.Finite (3 # 2))
       [Check 0 "a"; Check 1 "a"; Check 2 "a"] ∅).2 in
  getCount 3 "a" limitMap <= 2
  /\ getCount 3 "a" limitMap' <= Qceiling (3 # 2)
  /\ getCount 3 "a" limitMap' = 2.
Proof.
  split; [|split; [|reflexivity]].
  - exact (proj1 (proj2 (proj2 (proj2 (limiter_counts_bounded 2
             [Check 0 "a"; Check 1 "a"; Check 2 "a"; Reset "b"] 3 "a")))
             2 eq_refl ltac:(lia))).
  - exact (proj1 (proj2 (proj2 (limiter_counts_bounded (JsNumber.Finite (3 # 2))
             [Check 0 "a"; Check 1 "a"; Check 2 "a"] 3 "a")))
             (3 # 2) eq_refl eq_refl).
Defined.

Lemma checkLimit_windowsWithin rpm T now identifier limitMap :
  T <= now ->
  windowsWithin T limitMap ->
  windowsWithin now (checkLimit rpm now identifier limitMap).2
  /\ forall w, (checkLimit rpm now identifier limitMap).1 = RateLimited w ->
               0 <= w <= 60.
Proof.
  intros HT Hinv.
  assert (Hmono : windowsWithin now limitMap).
  { intros i e Hi. pose proof (Hinv i e Hi). lia. }
  unfold checkLimit.
  destruct (limitMap !! identifier) as [entry|] eqn:E.
  - rewrite Z.gtb_ltb.
    destruct (Z.ltb_spec (resetTime entry) now); simpl.
    + split; [|done]. intros i e.
      destruct (decide (identifier = i)) as [->|Hne].
      * rewrite lookup_insert_eq. intros [= <-]. simpl. lia.
      * rewrite lookup_insert_ne by done. apply Hmono.
    + destruct (JsNumber.leb rpm (count entry)); simpl.
      * split; [exact Hmono |]. intros w [= <-].
        pose proof (Hinv _ _ E) as Hb. unfold windowMs in Hb.
        pose proof (ceil_div_bounds (resetTime entry - now)).
        pose proof (ceil_div_nonneg (resetTime entry - now)). lia.
      * split; [|done]. intros i e.
        destruct (decide (identifier = i)) as [->|Hne].
        -- rewrite lookup_insert_eq. intros [= <-]. simpl.
           pose proof (Hinv _ _ E). lia.
        -- rewrite lookup_insert_ne by done. apply Hmono.
  - simpl. split; [|done]. intros i e.
    destruct (decide (identifier = i)) as [->|Hne].
    + rewrite lookup_insert_eq. intros [= <-]. simpl. lia.
    + rewrite lookup_insert_ne by done. apply Hmono.
Qed.

Lemma limiterCalls_waits rpm cs :
  forall T limitMap,
  clockMonotone T cs ->
  windowsWithin T limitMap ->
  Forall (fun o => forall w, o = RateLimited w -> 0 <= w <= 60)
         (limiterCalls rpm cs limitMap).1.
Proof.
  induction cs as [|c cs IH]; intros T limitMap Hmono Hinv; [constructor |].
  destruct c as [now identifier|identifier|]; simpl in *.
  - destruct Hmono as [HT Hmono].
    pose proof (checkLimit_windowsWithin rpm T now identifier limitMap HT Hinv)
      as [H1 H2].
    destruct (checkLimit rpm now identifier limitMap) as [o m1]. simpl in *.
    specialize (IH now m1 Hmono H1).
    destruct (limiterCalls rpm cs m1) as [os m2]. simpl in *.
    constructor; [|exact IH]. intros w ->. by apply H2.
  - assert (H1 : windowsWithin T (reset identifier limitMap)).
    { intros i e H. unfold reset in H.
      apply lookup_delete_Some in H as [_ H]. by apply (Hinv i). }
    specialize (IH T _ Hmono H1).
    destruct (limiterCalls rpm cs _) as [os m2]. exact IH.
  - assert (H1 : windowsWithin T (resetAll limitMap)).
    { intros i e. unfold resetAll. by rewrite lookup_empty. }
    specialize (IH T _ Hmono H1).
    destruct (limiterCalls rpm cs _) as [os m2]. exact IH.
Qed.

(** X4.  On a limiter whose clock never goes back, every refusal since its
    creation tells the caller to wait between 0 and 60 seconds. *)
Theorem limiter_wait_at_most_a_minute
    (rpm : JsNumber.number) (T : Z) (cs : list LimiterCall) :
  clockMonotone T cs ->
  Forall (fun o => forall w, o = RateLimited w -> 0 <= w <= 60)
         (limiterCalls rpm cs ∅).1.
Proof.
  intros Hmono. apply (limiterCalls_waits rpm cs T ∅ Hmono).
  intros i e. by rewrite lookup_empty.
Qed.

Lemma limiter_wait_at_most_a_minute_witness :
  Forall (fun o => forall w, o = RateLimited w -> 0 <= w <= 60)
         (limiterCalls 1 [Check 0 "a"; Check 1 "a"; Check 59999 "a"] ∅).1
  /\ (limiterCalls 1 [Check 0 "a"; Check 1 "a"; Check 59999 "a"] ∅).1
     = [Allowed; RateLimited 60; RateLimited 1].
Proof.
  split; [|reflexivity].
  refine (limiter_wait_at_most_a_minute 1 0
            [Check 0 "a"; Check 1 "a"; Check 59999 "a"] _).
  simpl. lia.
Defined.

(** X5.  After [reset] of an identifier, or after [resetAll], the next
    check of that identifier succeeds whatever its count was, and opens a
    fresh window with count 1; [getCount] reports 0 in between. *)
Theorem reset_reopens
    (rpm : JsNumber.number) (now : Z) (identifier : string)
    (limitMap : gmap string RateLimitEntry) :
  checkLimit rpm now identifier (reset identifier limitMap)
  = (Allowed, <[identifier := newEntry now]> (reset identifier limitMap))
  /\ checkLimit rpm now identifier (resetAll limitMap)
     = (Allowed, {[ identifier := newEntry now ]})
  /\ getCount now identifier (reset identifier limitMap) = 0
  /\ getCount now identifier (resetAll limitMap) = 0
  /\ getCount now identifier
       (checkLimit rpm now identifier (reset identifier limitMap)).2 = 1.
Proof.
  assert (H1 : reset identifier limitMap !! identifier = None).
  { unfold reset. apply lookup_delete_eq. }
  assert (H2 : resetAll limitMap !! identifier = None).
  { unfold resetAll. apply lookup_empty. }
  rewrite (checkLimit_fresh _ _ _ _ H1), (checkLimit_fresh _ _ _ _ H2).
  unfold getCount. rewrite H1, H2. simpl. rewrite lookup_insert_eq. simpl.
  rewrite Z.gtb_ltb. unfold windowMs.
  destruct (Z.ltb_spec (now + 60000) now); [lia |].
  repeat split.
Qed.

End RateLimiterRunFacts.

(** ** More about the history manager: counting, clearing, the newest turn *)

Module HistoryManagerMoreFacts.
Import Types HistoryManager JsNumberFacts HistoryManagerFacts.
Local Open Scope Z_scope.

(** X6.  [getConversationCount] counts the stored lists, empty ones
    included: [getHistory] and [updateHistory] add one for a conversation
    not seen before and none for a known one; [clearHistory] takes one off
    for a known conversation and none otherwise; [clearAll] leaves 0. *)
Theorem conversation_count
    (maxHistoryLength : JsNumber.number) (c : string)
    (u a : OpenRouterMessage)
    (histories : gmap string (list OpenRouterMessage)) :
  let known := match histories !! c with Some _ => 1%nat | None => 0%nat end in
  (getConversationCount (getHistory c histories).2 + known
   = S (getConversationCount histories))%nat
  /\ (getConversationCount (updateHistory maxHistoryLength c u a histories)
      + known
      = S (getConversationCount histories))%nat
  /\ (getConversationCount (clearHistory c histories) + known
      = getConversationCount histories)%nat
  /\ getConversationCount (clearAll histories) = 0%nat.
Proof.
  unfold getConversationCount, updateHistory, getHistory, clearHistory, clearAll.
  rewrite map_size_delete, map_size_empty.
  destruct (histories !! c) as [h|] eqn:E; cbn [fst snd].
  - rewrite map_size_insert, E.
    assert (0 < size histories)%nat; [|simpl; lia].
    destruct (decide (size histories = 0%nat)) as [H0|]; [|lia].
    apply map_size_empty_iff in H0. subst. by rewrite lookup_empty in E.
  - rewrite !map_size_insert, lookup_insert_eq, E. simpl. lia.
Qed.

(** What pruning keeps under a maximum of at least [k]: the list less what
    it has above some integer [m] that is at least [k]. *)
Lemma prune_at_least (maxHistoryLength : JsNumber.number) (k : Z)
    (history : list OpenRouterMessage) :
  JsNumber.leb k maxHistoryLength = true ->
  exists m,
    k <= m
    /\ (prune maxHistoryLength history).2
       = drop (Z.to_nat (Z.of_nat (length history) - m)) history
    /\ (JsNumber.leb maxHistoryLength k = true -> m = k)
    /\ (JsNumber.ltb k maxHistoryLength = true -> k < m).
Proof.
  intros Hk. destruct maxHistoryLength as [q| | |]; try done.
  - exists (Qceiling q). rewrite prune_Finite. cbn [snd].
    rewrite leb_ofZ_Finite in Hk. apply Z.leb_le in Hk.
    pose proof (Qfloor_le_ceiling q).
    rewrite leb_Finite_ofZ, ltb_ofZ_Finite, Z.leb_le, Z.ltb_lt.
    repeat split; lia.
  - exists (Z.max (k + 1) (Z.of_nat (length history))).
    rewrite prune_PosInfinity. cbn [snd].
    replace (Z.to_nat _) with 0%nat by lia.
    repeat split; try done; lia.
Qed.

(** X7.  [clearHistory] forgets one conversation and no other: afterwards
    nothing is stored for it and [hasHistory] answers false, every other
    conversation keeps its entry, and the next update of the cleared
    conversation starts over, storing just the new turn when the maximum
    is at least 2. *)
Theorem clearHistory_forgets
    (maxHistoryLength : JsNumber.number) (c c' : string)
    (u a : OpenRouterMessage)
    (histories : gmap string (list OpenRouterMessage)) :
  clearHistory c histories !! c = None
  /\ hasHistory c (clearHistory c histories) = false
  /\ (c <> c' -> clearHistory c histories !! c' = histories !! c')
  /\ (JsNumber.leb 2 maxHistoryLength = true ->
      updateHistory maxHistoryLength c u a (clearHistory c histories) !! c
      = Some [u; a]).
Proof.
  assert (H : clearHistory c histories !! c = None).
  { unfold clearHistory. apply lookup_delete_eq. }
  split; [exact H |]. split; [unfold hasHistory; by rewrite H |].
  split; [intros Hne; unfold clearHistory; by rewrite lookup_delete_ne |].
  intros Hmax. rewrite updateHistory_lookup. unfold stored. rewrite H. simpl.
  destruct (prune_at_least maxHistoryLength 2 [u; a] Hmax)
    as (m & Hm & -> & _).
  replace (Z.to_nat (Z.of_nat (length [u; a]) - m)) with 0%nat
    by (simpl; lia).
  done.
Qed.

Lemma clearHistory_forgets_witness :
  let u := {| role := user; content := "q" |} in
  let a := {| role := assistant; content := "r" |} in
  updateHistory 20 "c" u a
    (clearHistory "c" (updateHistory 20 "c" a u ∅)) !! "c"
  = Some [u; a].
Proof.
  exact (proj2 (proj2 (proj2 (clearHistory_forgets 20 "c" "c"
           {| role := user; content := "q" |}
           {| role := assistant; content := "r" |}
           (updateHistory 20 "c" {| role := assistant; content := "r" |}
                                 {| role := user; content := "q" |} ∅))))
           eq_refl).
Defined.

(** X8.  The newest turn survives the pruning: for a maximum of at least 2
    the stored list ends with the user message and the assistant message
    just appended, preceded by the newest of the older messages; for a
    maximum of 1 it is the assistant message alone.  Either way
    [hasHistory] answers true after an update. *)
Theorem updateHistory_keeps_newest
    (maxHistoryLength : JsNumber.number) (c : string)
    (u a : OpenRouterMessage)
    (histories : gmap string (list OpenRouterMessage)) :
  JsNumber.leb 1 maxHistoryLength = true ->
  let h := stored c (updateHistory maxHistoryLength c u a histories) in
  hasHistory c (updateHistory maxHistoryLength c u a histories) = true
  /\ last h = Some a
  /\ (JsNumber.leb maxHistoryLength 1 = true -> h = [a])
  /\ (JsNumber.leb 2 maxHistoryLength = true ->
      exists older, h = older ++ [u; a]
                    /\ older `suffix_of` stored c histories).
Proof.
  intros Hmax h.
  assert (Hh : h = (prune maxHistoryLength (stored c histories ++ [u; a])).2).
  { unfold h. apply stored_updateHistory_eq. }
  assert (Hlen : Z.of_nat (length (stored c histories ++ [u; a]))
                 = Z.of_nat (length (stored c histories)) + 2).
  { rewrite length_app. simpl. lia. }
  destruct (prune_at_least maxHistoryLength 1
              (stored c histories ++ [u; a]) Hmax)
    as (m & Hm & Hdrop & Hone & Hmore).
  assert (Hcases :
    (m = 1 /\ h = [a])
    \/ (2 <= m
        /\ exists older, h = older ++ [u; a]
                         /\ older `suffix_of` stored c histories)).
  { rewrite Hh, Hdrop.
    destruct (decide (m = 1)) as [H1|H1].
    - left. split; [done |].
      replace (Z.to_nat _) with (length (stored c histories ++ [u])) by
        (rewrite length_app; simpl; lia).
      replace (stored c histories ++ [u; a])
        with ((stored c histories ++ [u]) ++ [a])
        by (by rewrite <- app_assoc).
      by rewrite drop_app_length.
    - right. split; [lia |].
      exists (drop (Z.to_nat (Z.of_nat (length (stored c histories)) + 2 - m))
                   (stored c histories)).
      split; [|apply suffix_drop].
      rewrite drop_app_le by lia. f_equal. f_equal. lia. }
  split.
  - unfold hasHistory. rewrite updateHistory_lookup. fold h in Hh.
    rewrite <- Hh.
    destruct Hcases as [[_ ->] | [_ (older & -> & _)]]; [done |].
    rewrite length_app. simpl. rewrite Z.gtb_ltb.
    destruct (Z.ltb_spec 0 (Z.of_nat (length older + 2))); [done | lia].
  - split.
    + destruct Hcases as [[_ ->] | [_ (older & -> & _)]]; [done |].
      replace (older ++ [u; a]) with ((older ++ [u]) ++ [a])
        by (by rewrite <- app_assoc).
      apply last_snoc.
    + split.
      * intros H1. specialize (Hone H1).
        destruct Hcases as [[_ H] | [H _]]; [done | lia].
      * intros H2.
        destruct (prune_at_least maxHistoryLength 2
                    (stored c histories ++ [u; a]) H2)
          as (m2 & Hm2 & Hdrop2 & _).
        rewrite Hh, Hdrop2.
        exists (drop (Z.to_nat (Z.of_nat (length (stored c histories)) + 2
                                - m2))
                     (stored c histories)).
        split; [|apply suffix_drop].
        rewrite drop_app_le by lia. f_equal. f_equal. lia.
Qed.

Lemma updateHistory_keeps_newest_witness :
  let u1 := {| role := user; content := "q1" |} in
  let a1 := {| role := assistant; content := "r1" |} in
  let u2 := {| role := user; content := "q2" |} in
  let a2 := {| role := assistant; content := "r2" |} in
  last (stored "c" (updateHistory 3 "c" u2 a2 (updateHistory 3 "c" u1 a1 ∅)))
  = Some a2
  /\ stored "c" (updateHistory 3 "c" u2 a2 (updateHistory 3 "c" u1 a1 ∅))
     = [a1; u2; a2].
Proof.
  split; [|reflexivity].
  exact (proj1 (proj2 (updateHistory_keeps_newest 3 "c"
           {| role := user; content := "q2" |}
           {| role := assistant; content := "r2" |}
           (updateHistory 3 "c" {| role := user; content := "q1" |}
                                {| role := assistant; content := "r1" |} ∅)
           eq_refl))).
Defined.

(** X9.  The manager keeps conversations apart: [getHistory],
    [updateHistory] and [clearHistory] of one conversation leave the entry
    of every other conversation as it was.  Reading a conversation twice
    gives the same list and the same map as reading it once, and changes
    nothing at all once the conversation has an entry. *)
Theorem history_calls_frame
    (maxHistoryLength : JsNumber.number) (c c' : string)
    (u a : OpenRouterMessage)
    (histories : gmap string (list OpenRouterMessage)) :
  (c <> c' ->
   (getHistory c histories).2 !! c' = histories !! c'
   /\ updateHistory maxHistoryLength c u a histories !! c' = histories !! c'
   /\ clearHistory c histories !! c' = histories !! c')
  /\ getHistory c (getHistory c histories).2 = getHistory c histories
  /\ (is_Some (histories !! c) -> (getHistory c histories).2 = histories).
Proof.
  split; [|split].
  - intros Hne. unfold updateHistory, getHistory, clearHistory.
    destruct (histories !! c); cbn [fst snd];
      rewrite ?lookup_insert_ne, ?lookup_delete_ne by done; done.
  - unfold getHistory. destruct (histories !! c) as [h|] eqn:E; cbn [fst snd].
    + by rewrite E.
    + by rewrite lookup_insert_eq.
  - intros [h E]. unfold getHistory. by rewrite E.
Qed.

Lemma history_calls_frame_witness :
  let u := {| role := user; content := "q" |} in
  let a := {| role := assistant; content := "r" |} in
  updateHistory 20 "b" u a (updateHistory 20 "a" u a ∅) !! "a" = Some [u; a].
Proof.
  exact (eq_trans
           (proj1 (proj2 (proj1 (history_calls_frame 20 "b" "a"
              {| role := user; content := "q" |}
              {| role := assistant; content := "r" |}
              (updateHistory 20 "a" {| role := user; content := "q" |}
                                    {| role := assistant; content := "r" |} ∅))
              ltac:(discriminate))))
           eq_refl).
Defined.

End HistoryManagerMoreFacts.

(** ** More about the model selector: the table and the classifier *)

Module ModelSelectorMoreFacts.
Import Types JsString JsStringFacts ModelSelector ModelSelectorFacts ModelListing.

Lemma ownKey_modelKey modelId key :
  ownKey modelId = Some key <-> modelId = modelKey key.
Proof.
  unfold ownKey. split.
  - destruct (String.eqb_spec modelId "gemini-2.5-pro") as [->|];
      [by intros [= <-] |].
    destruct (String.eqb_spec modelId "gpt-5-codex") as [->|];
      [by intros [= <-] |].
    destruct (String.eqb_spec modelId "grok-code-fast-1") as [->|];
      [by intros [= <-] | discriminate].
  - intros ->. by destruct key.
Qed.

(** X10.  The table and its listing agree: a model id resolves to a
    descriptor exactly when it is one of the listed names, and then to the
    descriptor listed under that name; the listed names are the three keys,
    in the order of the table and without repetition, and they are what the
    tool definitions offer. *)
Theorem listing_resolves (modelId : string) (config : ModelConfig) :
  (getModelById modelId = Descriptor config
   <-> exists entry,
        entry ∈ listModels
        /\ listing_name entry = modelId
        /\ config = {| id := listing_id entry;
                       description := listing_description entry;
                       bestFor := listing_bestFor entry |})
  /\ ((exists c, getModelById modelId = Descriptor c) <-> modelId ∈ getModelNames)
  /\ toolModelNames = getModelNames
  /\ NoDup getModelNames.
Proof.
  split; [|split; [|split]].
  - unfold getModelById. split.
    + destruct (ownKey modelId) as [key|] eqn:E.
      * apply ownKey_modelKey in E. subst. intros [= <-].
        exists {| listing_name := modelKey key;
                  listing_id := id (AVAILABLE_MODELS key);
                  listing_description := description (AVAILABLE_MODELS key);
                  listing_bestFor := bestFor (AVAILABLE_MODELS key) |}.
        split; [|split; [done | by destruct key]].
        unfold listModels, getAllModels, modelTypes.
        destruct key; simpl;
          apply list_elem_of_In; simpl; auto 6.
      * by destruct (existsb _ _).
    + intros (entry & Hin & Hname & ->).
      unfold listModels, getAllModels, modelTypes in Hin. simpl in Hin.
      apply elem_of_cons in Hin as [-> | Hin]; [by subst |].
      apply elem_of_cons in Hin as [-> | Hin]; [by subst |].
      apply elem_of_cons in Hin as [-> | Hin]; [by subst |].
      by apply elem_of_nil in Hin.
  - unfold getModelById, getModelNames. split.
    + intros [c H]. destruct (ownKey modelId) as [key|] eqn:E.
      * apply ownKey_modelKey in E. subst.
        destruct key; simpl;
          apply list_elem_of_In; simpl; auto 6.
      * by destruct (existsb _ _).
    + intros Hin.
      apply elem_of_cons in Hin as [-> | Hin]; [by eexists |].
      apply elem_of_cons in Hin as [-> | Hin]; [by eexists |].
      apply elem_of_cons in Hin as [-> | Hin]; [by eexists |].
      by apply elem_of_nil in Hin.
  - reflexivity.
  - apply (bool_decide_unpack _). by vm_compute.
Qed.

Lemma toLowerChar_idempotent c : toLowerChar (toLowerChar c) = toLowerChar c.
Proof. destruct c as [[] [] [] [] [] [] [] []]; reflexivity. Qed.

Lemma toLowerCase_idempotent s : toLowerCase (toLowerCase s) = toLowerCase s.
Proof.
  induction s as [|c s IH]; [done |]. simpl.
  by rewrite toLowerChar_idempotent, IH.
Qed.

(** X11.  The selector ignores letter case: a text and its lower-casing get
    the same descriptor, so two texts that differ only in the case of
    ASCII letters do. *)
Theorem selectModel_ignores_case (text : string) :
  selectModel (toLowerCase text) = selectModel text.
Proof. unfold selectModel. by rewrite toLowerCase_idempotent. Qed.

(** X12.  What each answer of the selector means, with [l] the lower-cased
    text: it is always one of the three descriptors of the table; Gemini
    exactly when [l] has a quick-question keyword and no coding or
    complex-analysis keyword; Grok exactly when [l] has no coding keyword
    and has a complex-analysis keyword or, without a quick-question
    keyword, a budget keyword; GPT-5 Codex in every other case, that is
    with a coding keyword or with no keyword at all.  In particular a
    coding keyword anywhere in the text outranks every other keyword. *)
Theorem selectModel_answers (text : string) :
  let l := toLowerCase text in
  (exists key, selectModel text = AVAILABLE_MODELS key)
  /\ (selectModel text = AVAILABLE_MODELS GEMINI_2_5_PRO
      <-> isCodingTask l = false /\ isComplexAnalysisTask l = false
          /\ isQuickQuestionTask l = true)
  /\ (selectModel text = AVAILABLE_MODELS GROK_CODE_FAST_1
      <-> isCodingTask l = false
          /\ (isComplexAnalysisTask l = true
              \/ (isQuickQuestionTask l = false /\ isBudgetTask l = true)))
  /\ (selectModel text = AVAILABLE_MODELS GPT_5_CODEX
      <-> isCodingTask l = true
          \/ (isComplexAnalysisTask l = false
              /\ isQuickQuestionTask l = false /\ isBudgetTask l = false))
  /\ (forall keyword,
        In keyword codingKeywords -> includes l keyword = true ->
        selectModel text = AVAILABLE_MODELS GPT_5_CODEX).
Proof.
  intros l. unfold selectModel. fold l.
  assert (Hkw : forall keyword,
             In keyword codingKeywords -> includes l keyword = true ->
             isCodingTask l = true).
  { intros keyword Hin Hinc. by apply (someIncluded_intro _ _ keyword). }
  destruct (isCodingTask l) eqn:E1, (isComplexAnalysisTask l) eqn:E2,
           (isQuickQuestionTask l) eqn:E3, (isBudgetTask l) eqn:E4;
    (split; [eexists; reflexivity |]);
    (split; [split; [discriminate || tauto | intros (? & ? & ?); congruence] |]);
    (split; [split; [discriminate || tauto
                    | intros (? & [? | [? ?]]); congruence] |]);
    (split; [split; [discriminate || tauto
                    | intros [? | (? & ? & ?)]; congruence] |]);
    intros keyword Hin Hinc; try reflexivity;
    specialize (Hkw keyword Hin Hinc); discriminate.
Qed.

Lemma selectModel_answers_witness :
  selectModel "Quick question about my BUDGET for this code"
  = AVAILABLE_MODELS GPT_5_CODEX.
Proof.
  exact (proj2 (proj2 (proj2 (proj2
           (selectModel_answers "Quick question about my BUDGET for this code"))))
           "code" ltac:(simpl; tauto) eq_refl).
Defined.

End ModelSelectorMoreFacts.

(** ** More about the consultation service: keys, effects and round trips *)

Module ConsultationServiceMoreFacts.
Import Types JsString JsStringFacts ConsultationService ConsultationServiceViews.
Import ConsultationServiceFacts.
Local Open Scope Z_scope.

(** *** The cache key *)

Lemma substring_all (n : nat) (s : string) :
  (String.length s <= n)%nat -> String.substring 0 n s = s.
Proof.
  revert n. induction s as [|c s IH]; intros n Hn.
  - by destruct n.
  - destruct n as [|n]; simpl in *; [lia |]. rewrite IH; [done | lia].
Qed.

Lemma includes_colon_cons (c : Ascii.ascii) (s : string) :
  includes (String c s) ":" = false ->
  String c EmptyString <> ":" /\ includes s ":" = false.
Proof.
  cbn [includes]. intros H. apply orb_false_iff in H as [H1 H2].
  split; [|done]. intros Heq. injection Heq as ->.
  simpl in H1. by destruct s.
Qed.

Lemma colon_free_split (m m' x x' : string) :
  includes m ":" = false -> includes m' ":" = false ->
  m +:+ ":" +:+ x = m' +:+ ":" +:+ x' -> m = m' /\ x = x'.
Proof.
  revert m'. induction m as [|c m IH]; intros [|c' m'] Hm Hm' Heq;
    repeat (rewrite ?append_nil_l, ?append_cons in Heq).
  - split; [done |]. by injection Heq.
  - apply includes_colon_cons in Hm' as [Hc _].
    injection Heq as Hh _. by subst.
  - apply includes_colon_cons in Hm as [Hc _].
    injection Heq as Hh _. by subst.
  - apply includes_colon_cons in Hm as [_ Hm].
    apply includes_colon_cons in Hm' as [_ Hm'].
    injection Heq as -> Heq.
    destruct (IH m' Hm Hm' Heq) as [-> ->]. done.
Qed.

(** X13.  The cache is keyed by the model id and the first 100 characters
    of the prompt.  A stored result is found again under its own prompt and
    under every prompt with the same first 100 characters, whatever comes
    after them; storing under one key changes no other key; and for model
    ids without a colon, as all ids of the table are, and prompts of at
    most 100 characters, different requests never share a key. *)
Theorem cache_key_prefix
    (prompt prompt' : string) (model model' : option string)
    (result : ConsultResult) (cache : gmap string ConsultResult) :
  (String.substring 0 100 prompt = String.substring 0 100 prompt' ->
   checkCache prompt' model (cacheResult prompt model result cache)
   = Some result)
  /\ (generateCacheKey prompt' model' <> generateCacheKey prompt model ->
      checkCache prompt' model' (cacheResult prompt model result cache)
      = checkCache prompt' model' cache)
  /\ (includes (interpolate model) ":" = false ->
      includes (interpolate model') ":" = false ->
      (String.length prompt <= 100)%nat ->
      (String.length prompt' <= 100)%nat ->
      generateCacheKey prompt model = generateCacheKey prompt' model' ->
      interpolate model = interpolate model' /\ prompt = prompt')
  /\ (forall key,
        includes (id (ModelSelector.AVAILABLE_MODELS key)) ":" = false).
Proof.
  unfold checkCache, cacheResult, generateCacheKey. cbv zeta.
  split; [|split; [|split]].
  - intros ->. apply lookup_insert_eq.
  - intros Hne. by rewrite lookup_insert_ne.
  - intros Hm Hm' Hp Hp'. rewrite !substring_all by done.
    by apply colon_free_split.
  - by intros [].
Qed.

Lemma cache_key_prefix_witness :
  checkCache (hundredChars +:+ " and then a question")
             (Some "openai/gpt-5-codex")
    (cacheResult (hundredChars +:+ " and then another one")
                 (Some "openai/gpt-5-codex")
                 {| model := "openai/gpt-5-codex"; response := "answer";
                    usage := zeroUsage |} ∅)
  = Some {| model := "openai/gpt-5-codex"; response := "answer";
            usage := zeroUsage |}.
Proof.
  exact (proj1 (cache_key_prefix
           (hundredChars +:+ " and then another one")
           (hundredChars +:+ " and then a question")
           (Some "openai/gpt-5-codex") None
           {| model := "openai/gpt-5-codex"; response := "answer";
              usage := zeroUsage |} ∅) eq_refl).
Defined.

(** *** The combined document *)

(** X14.  The combined document starts with its title line and holds, for
    every entry, the section of that entry under its position counted from
    1, and so the model name and the response (or error) text of every
    entry. *)
Theorem combineResponses_sections
    (results : list ModelEntry) (i : nat) (entry : ModelEntry) :
  results !! i = Some entry ->
  String.prefix ("# Multi-Model Consultation Results" +:+ newline +:+ newline)
                (combineResponses results) = true
  /\ includes (combineResponses results) (combineSection i entry) = true
  /\ includes (combineResponses results)
       ("## Model " +:+ pretty (i + 1)%nat +:+ ": " +:+ entry_model entry) = true
  /\ includes (combineResponses results) (entry_response entry) = true.
Proof.
  intros Hi. unfold combineResponses.
  split.
  - rewrite fold_append. apply prefix_split. eexists. reflexivity.
  - assert (Hsec : includes
              (fold_left (fun combined section => combined +:+ section)
                 (imap combineSection results)
                 ("# Multi-Model Consultation Results" +:+ newline +:+ newline))
              (combineSection i entry) = true).
    { apply list_elem_of_split_length in Hi as (l1 & l2 & -> & ->).
      rewrite imap_app. cbn [imap]. rewrite Nat.add_0_r.
      match goal with
      | |- includes (fold_left _ (?l ++ ?x :: ?k) ?init) _ = true =>
          destruct (fold_append_middle l k x init) as (before & after & ->)
      end.
      apply includes_split. exists before, after. reflexivity. }
    split; [exact Hsec |]. split.
    + apply (includes_trans _ _ _ Hsec). apply includes_split.
      exists "",
        ((if entry_cached entry then " (cached)" else "")
           +:+ newline +:+ newline
         +:+ (entry_response entry +:+ newline +:+ newline)
         +:+ ("**Tokens used:** "
                +:+ pretty (default 0 (total_tokens (entry_usage entry)))
                +:+ newline +:+ newline)
         +:+ ("---" +:+ newline +:+ newline)).
      unfold combineSection. rewrite append_nil_l, !append_assoc. reflexivity.
    + apply (includes_trans _ _ _ Hsec). apply includes_split.
      exists ("## Model " +:+ pretty (i + 1)%nat +:+ ": " +:+ entry_model entry
                +:+ (if entry_cached entry then " (cached)" else "")
                +:+ newline +:+ newline),
        (newline +:+ newline
         +:+ ("**Tokens used:** "
                +:+ pretty (default 0 (total_tokens (entry_usage entry)))
                +:+ newline +:+ newline)
         +:+ ("---" +:+ newline +:+ newline)).
      unfold combineSection. rewrite !append_assoc. reflexivity.
Qed.

Lemma combineResponses_sections_witness :
  includes
    (combineResponses
       [resultEntry "gpt-5-codex"
          {| model := "openai/gpt-5-codex"; response := "fine";
             usage := zeroUsage |} false;
        errorEntry "grok-code-fast-1" (ApiError "boom")])
    "Error: boom" = true.
Proof.
  exact (proj2 (proj2 (proj2 (combineResponses_sections
           [resultEntry "gpt-5-codex"
              {| model := "openai/gpt-5-codex"; response := "fine";
                 usage := zeroUsage |} false;
            errorEntry "grok-code-fast-1" (ApiError "boom")]
           1 (errorEntry "grok-code-fast-1" (ApiError "boom")) eq_refl)))).
Defined.

(** *** Effects of one request *)

Section ServiceEffects.
Context {U : Type}.
Variable consultAI :
  string -> option string -> list OpenRouterMessage -> U ->
  (Error + ConsultResult) * U.
Variable requestsPerMinute : JsNumber.number.
Variable maxHistoryLength : JsNumber.number.

Local Abbreviation State := (ConsultationService.State U).
Local Abbreviation Batch := (@ConsultationService.Batch U).
Local Abbreviation consultOne := (ConsultationService.consultOne consultAI).
Local Abbreviation batchState :=
  (ConsultationService.batchState (U := U) requestsPerMinute).
Local Abbreviation consultMultipleModels :=
  (ConsultationService.consultMultipleModels
     consultAI requestsPerMinute maxHistoryLength).
Local Abbreviation consult :=
  (ConsultationService.consult consultAI requestsPerMinute maxHistoryLength).
Local Abbreviation handleConsultAI :=
  (ConsultationService.handleConsultAI
     consultAI requestsPerMinute maxHistoryLength).

(** X15.  A request that the limiter refuses has no effect: [consult], on
    either path, throws the rate-limit error with the limiter's wait and
    leaves limiter, histories, cache, upstream client and log as they
    were, also when the request asks to clear the history; the tool
    handler passes the error on. *)
Theorem rate_limited_no_effect
    (now : Z) (args : ConsultArgs) (s : State) (w : Z) :
  (RateLimiter.checkLimit requestsPerMinute now (rateLimitId args)
                          (limitMap s)).1 = RateLimiter.RateLimited w ->
  consult now args s = (inl (rateLimitError w), s)
  /\ (prompt args <> "" ->
      handleConsultAI now args s = (inl (rateLimitError w), s)).
Proof.
  intros Hrl.
  assert (Hc : consult now args s = (inl (rateLimitError w), s)).
  { unfold ConsultationService.consult,
      ConsultationService.consultMultipleModels.
    destruct (RateLimiter.checkLimit _ _ _ _) as [o lm]. simpl in Hrl. subst o.
    by destruct (models args) as [[|m ms]|]. }
  split; [exact Hc |]. intros Hp. unfold ConsultationService.handleConsultAI.
  rewrite Hc. by destruct (prompt args).
Qed.

(** *** What the multi-model loop leaves alone *)

Lemma stored_getHistory_any c conversationId
    (h : gmap string (list OpenRouterMessage)) :
  HistoryManager.stored conversationId (HistoryManager.getHistory c h).2
  = HistoryManager.stored conversationId h.
Proof. apply HistoryManagerFacts.stored_getHistory. Qed.

Lemma consultOne_frame args (b : Batch) modelId :
  limitMap (state (consultOne args b modelId)) = limitMap (state b)
  /\ warnings (state (consultOne args b modelId)) = warnings (state b)
  /\ (forall c, HistoryManager.stored c
                  (histories (state (consultOne args b modelId)))
                = HistoryManager.stored c (histories (state b)))
  /\ (truthy (conversation_id args) = None ->
      histories (state (consultOne args b modelId)) = histories (state b))
  /\ (is_Some (truthy (conversation_id args)) ->
      cache (state (consultOne args b modelId)) = cache (state b)).
Proof.
  unfold ConsultationService.consultOne.
  destruct (truthy (conversation_id args)) as [conversationId|].
  - pose proof (fun c => stored_getHistory_any conversationId c
                           (histories (state b))) as Hst.
    destruct (HistoryManager.getHistory _ _) as [history hs]. simpl in Hst.
    destruct (consultAI _ _ _ _) as [[error|result] u]; simpl;
      repeat split; try done; by intros [? ?].
  - destruct (checkCache _ _ _) as [cachedResult|].
    + simpl. repeat split; try done; by intros [? ?].
    + destruct (consultAI _ _ _ _) as [[error|result] u]; simpl;
        repeat split; try done; by intros [? ?].
Qed.

Lemma batch_frame args requested :
  forall b : Batch,
  let b' := fold_left (consultOne args) requested b in
  limitMap (state b') = limitMap (state b)
  /\ warnings (state b') = warnings (state b)
  /\ (forall c, HistoryManager.stored c (histories (state b'))
                = HistoryManager.stored c (histories (state b)))
  /\ (truthy (conversation_id args) = None ->
      histories (state b') = histories (state b))
  /\ (is_Some (truthy (conversation_id args)) ->
      cache (state b') = cache (state b)).
Proof.
  induction requested as [|modelId rest IH]; intros b; [done |].
  simpl. destruct (consultOne_frame args b modelId) as (H1 & H2 & H3 & H4 & H5).
  destruct (IH (consultOne args b modelId)) as (I1 & I2 & I3 & I4 & I5).
  cbv zeta in *. split; [congruence |]. split; [congruence |].
  split; [intros c; by rewrite I3, H3 |].
  split; intros Hc; [rewrite I4, H4 | rewrite I5, H5]; done.
Qed.

(** X16.  The effects of a multi-model batch that passes the limiter: the
    limiter is charged once, whatever the number of models, and nothing is
    logged; without a conversation id no history is touched; with one, the
    cache is not touched, the conversation receives exactly one turn, the
    prompt and the combined document, pruned as by [updateHistory], and
    every other conversation keeps its messages. *)
Theorem batch_effects
    (now : Z) (args : ConsultArgs) (s : State) (requested : list string) :
  models args = Some requested ->
  requested <> [] ->
  (RateLimiter.checkLimit requestsPerMinute now (rateLimitId args)
                          (limitMap s)).1 = RateLimiter.Allowed ->
  let s1 := batchState now args s in
  let b := fold_left (consultOne args) requested (startBatch s1) in
  let final := (consult now args s).2 in
  limitMap final
  = (RateLimiter.checkLimit requestsPerMinute now (rateLimitId args)
                            (limitMap s)).2
  /\ warnings final = warnings s
  /\ match truthy (conversation_id args) with
     | None => histories final = histories s
     | Some c =>
         cache final = cache s
         /\ HistoryManager.stored c (histories final)
            = (HistoryManager.prune maxHistoryLength
                 (HistoryManager.stored c (histories s1)
                  ++ turn args (combineResponses (results b)))).2
         /\ (forall c', c <> c' ->
               HistoryManager.stored c' (histories final)
               = HistoryManager.stored c' (histories s))
     end.
Proof.
  intros Hm Hne Hrl s1 b final.
  destruct (batch_frame args requested (startBatch s1))
    as (F1 & F2 & F3 & F4 & F5).
  fold b in F1, F2, F3, F4, F5. simpl in F1, F2, F3, F4, F5.
  assert (Hfinal : final
    = match truthy (conversation_id args) with
      | Some conversationId =>
          setHistories
            (HistoryManager.updateHistory maxHistoryLength conversationId
               {| role := user; content := prompt args |}
               {| role := assistant;
                  content := combineResponses (results b) |}
               (histories (state b)))
            (state b)
      | None => state b
      end).
  { unfold final, ConsultationService.consult,
      ConsultationService.consultMultipleModels. rewrite Hm.
    destruct requested as [|m0 rest]; [done |].
    unfold b, s1, ConsultationService.batchState.
    destruct (RateLimiter.checkLimit _ _ _ _) as [o lm].
    simpl in Hrl. subst o. reflexivity. }
  assert (Hs1 : limitMap s1
                = (RateLimiter.checkLimit requestsPerMinute now
                     (rateLimitId args) (limitMap s)).2
                /\ warnings s1 = warnings s /\ cache s1 = cache s
                /\ (truthy (conversation_id args) = None ->
                    histories s1 = histories s)
                /\ (forall c c', truthy (conversation_id args) = Some c ->
                      c <> c' ->
                      HistoryManager.stored c' (histories s1)
                      = HistoryManager.stored c' (histories s))).
  { unfold s1, ConsultationService.batchState, clearIfRequested.
    destruct (truthy (conversation_id args)) as [c0|]; [|done].
    destruct (default false (clear_history args)); [|by repeat split].
    simpl. repeat split; try done.
    intros c c' [= ->] Hcc. unfold HistoryManager.stored,
      HistoryManager.clearHistory. by rewrite lookup_delete_ne. }
  destruct Hs1 as (S1 & S2 & S3 & S4 & S5).
  rewrite Hfinal.
  destruct (truthy (conversation_id args)) as [c|] eqn:Ec; simpl.
  - split; [congruence |]. split; [congruence |].
    split; [rewrite F5 by done; congruence |]. split.
    + rewrite HistoryManagerFacts.stored_updateHistory_eq. by rewrite F3.
    + intros c' Hcc.
      rewrite HistoryManagerFacts.stored_updateHistory_ne by done.
      rewrite F3. by apply (S5 c).
  - split; [congruence |]. split; [congruence |]. rewrite F4 by done.
    by apply S4.
Qed.

(** *** A conversation does not see the cache *)

Lemma consultOne_withCache args (b : Batch) modelId cache' :
  is_Some (truthy (conversation_id args)) ->
  consultOne args (batchWithCache cache' b) modelId
  = batchWithCache cache' (consultOne args b modelId).
Proof.
  intros [c Hc]. unfold ConsultationService.consultOne. rewrite Hc. simpl.
  destruct (HistoryManager.getHistory _ _) as [history hs].
  by destruct (consultAI _ _ _ _) as [[error|result] u].
Qed.

Lemma batch_withCache args requested cache' :
  is_Some (truthy (conversation_id args)) ->
  forall b : Batch,
  fold_left (consultOne args) requested (batchWithCache cache' b)
  = batchWithCache cache' (fold_left (consultOne args) requested b).
Proof.
  intros Hc. induction requested as [|m rest IH]; intros b; [done |].
  simpl. by rewrite consultOne_withCache, IH.
Qed.

(** X17.  A request with a conversation id neither reads nor writes the
    cache, on either path: it has the same outcome whatever the cache
    holds, and leaves the cache as it found it. *)
Theorem conversation_bypasses_cache
    (now : Z) (args : ConsultArgs) (s : State)
    (cache' : gmap string ConsultResult) :
  is_Some (truthy (conversation_id args)) ->
  (consult now args (setCache cache' s)).1 = (consult now args s).1
  /\ cache (consult now args s).2 = cache s
  /\ cache (consult now args (setCache cache' s)).2 = cache'.
Proof.
  intros Hconv.
  assert (H : forall k,
             consult now args (setCache k s)
             = ((consult now args s).1, setCache k (consult now args s).2)).
  { intros k. destruct Hconv as [c Hc].
    unfold ConsultationService.consult,
      ConsultationService.consultMultipleModels. simpl.
    destruct (models args) as [[|m0 rest]|] eqn:Em.
    - destruct (RateLimiter.checkLimit _ _ _ _) as [[|w] lm]; [|done].
      unfold clearIfRequested. rewrite Hc. simpl.
      destruct (selectModel _ _ _) as [sel ws].
      destruct (default false (clear_history args)); simpl;
        destruct (HistoryManager.getHistory _ _) as [history hs];
        by destruct (consultAI _ _ _ _) as [[error|result] u].
    - destruct (RateLimiter.checkLimit _ _ _ _) as [[|w] lm]; [|done].
      cbv zeta.
      assert (Hb : startBatch (clearIfRequested args (setLimitMap lm (setCache k s)))
                   = batchWithCache k
                       (startBatch (clearIfRequested args (setLimitMap lm s)))).
      { unfold clearIfRequested. rewrite Hc.
        by destruct (default false (clear_history args)). }
      rewrite Hb, batch_withCache by (by exists c).
      rewrite Hc. reflexivity.
    - destruct (RateLimiter.checkLimit _ _ _ _) as [[|w] lm]; [|done].
      unfold clearIfRequested. rewrite Hc. simpl.
      destruct (selectModel _ _ _) as [sel ws].
      destruct (default false (clear_history args)); simpl;
        destruct (HistoryManager.getHistory _ _) as [history hs];
        by destruct (consultAI _ _ _ _) as [[error|result] u]. }
  split; [by rewrite H |]. split; [|by rewrite H].
  specialize (H (cache s)).
  assert (Hs : setCache (cache s) s = s) by (by destruct s).
  rewrite Hs in H. rewrite H at 1. done.
Qed.

(** *** The single-model path *)

Lemma batchState_fields (now : Z) (args : ConsultArgs) (s : State) :
  upstream (batchState now args s) = upstream s
  /\ cache (batchState now args s) = cache s
  /\ warnings (batchState now args s) = warnings s
  /\ limitMap (batchState now args s)
     = (RateLimiter.checkLimit requestsPerMinute now (rateLimitId args)
                               (limitMap s)).2
  /\ (forall c c', truthy (conversation_id args) = Some c -> c <> c' ->
        HistoryManager.stored c' (histories (batchState now args s))
        = HistoryManager.stored c' (histories s))
  /\ (forall c, truthy (conversation_id args) = Some c ->
        clear_history args = Some true ->
        HistoryManager.stored c (histories (batchState now args s)) = []).
Proof.
  unfold ConsultationService.batchState, clearIfRequested.
  destruct (truthy (conversation_id args)) as [c0|]; [|done].
  destruct (clear_history args) as [[|]|]; simpl; repeat split; try done.
  - intros c c' [= ->] Hcc. unfold HistoryManager.stored,
      HistoryManager.clearHistory. by rewrite lookup_delete_ne.
  - intros c [= ->] _. unfold HistoryManager.stored,
      HistoryManager.clearHistory. by rewrite lookup_delete_eq.
Qed.

(** X18.  A single-model request with a conversation id that passes the
    limiter and is answered upstream: the upstream client receives the
    stored messages of the conversation (none after a requested clear),
    its answer is returned as it is, the conversation receives exactly the
    turn of prompt and answer, pruned as by [updateHistory], every other
    conversation keeps its messages, and the cache is not touched. *)
Theorem single_conversation_turn
    (now : Z) (args : ConsultArgs) (s : State) (c : string)
    (result : ConsultResult) (u : U) :
  (models args = None \/ models args = Some []) ->
  truthy (conversation_id args) = Some c ->
  (RateLimiter.checkLimit requestsPerMinute now (rateLimitId args)
                          (limitMap s)).1 = RateLimiter.Allowed ->
  let s1 := batchState now args s in
  let selectedModel :=
    (selectModel (arg_model args) (task_description args) (prompt args)).1 in
  consultAI (prompt args) selectedModel
            (HistoryManager.stored c (histories s1)) (upstream s)
  = (inr result, u) ->
  let final := (consult now args s).2 in
  (consult now args s).1 = inr result
  /\ HistoryManager.stored c (histories final)
     = (HistoryManager.prune maxHistoryLength
          (HistoryManager.stored c (histories s1)
           ++ turn args (response result))).2
  /\ (forall c', c <> c' ->
        HistoryManager.stored c' (histories final)
        = HistoryManager.stored c' (histories s))
  /\ upstream final = u
  /\ cache final = cache s
  /\ (clear_history args = Some true ->
      HistoryManager.stored c (histories s1) = []).
Proof.
  intros Hmodels Hc Hrl s1 selectedModel Hup final.
  destruct (batchState_fields now args s) as (B1 & B2 & B3 & B4 & B5 & B6).
  fold s1 in B1, B2, B3, B4, B5, B6.
  assert (Hcons : consult now args s
    = (inr result,
       setHistories
         (HistoryManager.updateHistory maxHistoryLength c
            {| role := user; content := prompt args |}
            {| role := assistant; content := response result |}
            (HistoryManager.getHistory c (histories s1)).2)
         (setUpstream u
            (setHistories (HistoryManager.getHistory c (histories s1)).2
               (warn (selectModel (arg_model args) (task_description args)
                                  (prompt args)).2 s1))))).
  { rewrite <- B1 in Hup. clear B1 B2 B3 B4 B5 B6. revert Hup.
    rewrite <- (HistoryManagerFacts.getHistory_stored c).
    unfold s1, selectedModel, ConsultationService.batchState,
      ConsultationService.consult.
    destruct Hmodels as [-> | ->];
      destruct (RateLimiter.checkLimit _ _ _ _) as [o lm];
      simpl in Hrl; subst o; cbn [snd];
      destruct (selectModel _ _ _) as [sel ws]; cbn [fst snd];
      rewrite Hc;
      generalize (clearIfRequested args (setLimitMap lm s)); intros x;
      cbn [warn histories];
      destruct (HistoryManager.getHistory c (histories x)) as [history hs];
      cbn [fst snd setHistories warn upstream];
      intros Hup; rewrite Hup; reflexivity. }
  unfold final. rewrite Hcons. cbn [fst snd]. split; [done |].
  split.
  - simpl. rewrite HistoryManagerFacts.stored_updateHistory_eq.
    by rewrite HistoryManagerFacts.stored_getHistory.
  - split.
    + intros c' Hcc. simpl.
      rewrite HistoryManagerFacts.stored_updateHistory_ne by done.
      rewrite HistoryManagerFacts.stored_getHistory. by apply (B5 c).
    + simpl. split; [done |]. split; [done |]. intros Hcl. by apply B6.
Qed.

(** X19.  A single-model request that passes the limiter and whose
    upstream call throws (for a stateless request: after a cache miss):
    [consult] throws that same error and caches nothing.  No conversation
    gains a message: every conversation other than the request's own keeps
    its messages, and so does the request's own, unless the request asked
    to clear its history, which is then left empty, the failure undoing
    nothing.  The limiter has counted the request all the same. *)
Theorem single_upstream_failure
    (now : Z) (args : ConsultArgs) (s : State) (error : Error) (u : U) :
  (models args = None \/ models args = Some []) ->
  (RateLimiter.checkLimit requestsPerMinute now (rateLimitId args)
                          (limitMap s)).1 = RateLimiter.Allowed ->
  let s1 := batchState now args s in
  let selectedModel :=
    (selectModel (arg_model args) (task_description args) (prompt args)).1 in
  (truthy (conversation_id args) = None ->
   cache s !! generateCacheKey (prompt args) selectedModel = None) ->
  consultAI (prompt args) selectedModel (historyFor args s1) (upstream s)
  = (inl error, u) ->
  let final := (consult now args s).2 in
  (consult now args s).1 = inl error
  /\ cache final = cache s
  /\ (forall c, truthy (conversation_id args) <> Some c ->
        HistoryManager.stored c (histories final)
        = HistoryManager.stored c (histories s))
  /\ (forall c, truthy (conversation_id args) = Some c ->
        HistoryManager.stored c (histories final)
        = if default false (clear_history args) then []
          else HistoryManager.stored c (histories s))
  /\ upstream final = u
  /\ limitMap final
     = (RateLimiter.checkLimit requestsPerMinute now (rateLimitId args)
                               (limitMap s)).2.
Proof.
  intros Hmodels Hrl s1 selectedModel Hmiss Hup final.
  destruct (batchState_fields now args s) as (B1 & B2 & B3 & B4 & _ & _).
  fold s1 in B1, B2, B3, B4.
  assert (Hcons : consult now args s
    = (inl error,
       setUpstream u
         (setHistories
            (match truthy (conversation_id args) with
             | Some c => (HistoryManager.getHistory c (histories s1)).2
             | None => histories s1
             end)
            (warn (selectModel (arg_model args) (task_description args)
                               (prompt args)).2 s1)))).
  { rewrite <- B1 in Hup. rewrite <- B2 in Hmiss. clear B1 B2 B3 B4.
    revert Hup Hmiss.
    unfold historyFor, s1, selectedModel, ConsultationService.batchState,
      ConsultationService.consult.
    destruct Hmodels as [-> | ->];
      destruct (RateLimiter.checkLimit _ _ _ _) as [o lm];
      simpl in Hrl; subst o; cbn [snd];
      destruct (selectModel _ _ _) as [sel ws]; cbn [fst snd];
      generalize (clearIfRequested args (setLimitMap lm s)); intros x;
      (destruct (truthy (conversation_id args)) as [c|];
       [ rewrite <- (HistoryManagerFacts.getHistory_stored c);
         cbn [warn histories];
         destruct (HistoryManager.getHistory c (histories x)) as [history hs];
         cbn [fst snd setHistories warn upstream];
         intros Hup _; rewrite Hup; reflexivity
       | intros Hup Hmiss; specialize (Hmiss eq_refl);
         unfold checkCache; cbn [warn cache upstream];
         rewrite Hmiss, Hup; by destruct x ]). }
  assert (Hst : forall c, HistoryManager.stored c (histories final)
                          = HistoryManager.stored c (histories s1)).
  { intros c. unfold final. rewrite Hcons. simpl.
    destruct (truthy (conversation_id args)); [|done].
    apply HistoryManagerFacts.stored_getHistory. }
  assert (Hs1 : forall c,
             HistoryManager.stored c (histories s1)
             = match truthy (conversation_id args) with
               | Some c0 =>
                   if decide (c0 = c) then
                     if default false (clear_history args) then []
                     else HistoryManager.stored c (histories s)
                   else HistoryManager.stored c (histories s)
               | None => HistoryManager.stored c (histories s)
               end).
  { intros c. unfold s1, ConsultationService.batchState, clearIfRequested.
    destruct (truthy (conversation_id args)) as [c0|]; [|done].
    destruct (default false (clear_history args)); simpl.
    - unfold HistoryManager.stored, HistoryManager.clearHistory.
      destruct (decide (c0 = c)) as [->|Hne].
      + by rewrite lookup_delete_eq.
      + by rewrite lookup_delete_ne.
    - by destruct (decide (c0 = c)). }
  split; [by rewrite Hcons |].
  split; [unfold final; rewrite Hcons; simpl; congruence |].
  split; [|split; [|split]].
  - intros c Hc. rewrite Hst, Hs1.
    destruct (truthy (conversation_id args)) as [c0|]; [|done].
    destruct (decide (c0 = c)) as [->|Hne]; [done | done].
  - intros c Hc. rewrite Hst, Hs1, Hc.
    by destruct (decide (c = c)).
  - unfold final. by rewrite Hcons.
  - unfold final. rewrite Hcons. simpl. congruence.
Qed.

(** X20.  Asking the same stateless single-model question twice.  The
    answer of the first request is in the cache for as long as
    [node-cache] holds the entry.  When the second request comes while the
    entry is held and passes the limiter, it is a cache hit: it returns the
    response text and usage of the first under the selected model's label
    followed by " (cached)", whatever the upstream client would do now,
    and leaves upstream client, cache and histories as it found them.  When
    the entry has expired, the upstream client is asked again, and its
    outcome is the outcome of the request. *)
Theorem repeated_request_hits_cache
    (consultAI' :
       string -> option string -> list OpenRouterMessage -> U ->
       (Error + ConsultResult) * U)
    (now now' : Z) (args : ConsultArgs) (s s' : State)
    (result : ConsultResult) (live : string -> bool) :
  truthy (conversation_id args) = None ->
  (models args = None \/ models args = Some []) ->
  consult now args s = (inr result, s') ->
  (RateLimiter.checkLimit requestsPerMinute now' "global" (limitMap s')).1
  = RateLimiter.Allowed ->
  let selectedModel :=
    (selectModel (arg_model args) (task_description args) (prompt args)).1 in
  let key := generateCacheKey (prompt args) selectedModel in
  let later := expire live s' in
  let r := ConsultationService.consult consultAI' requestsPerMinute
             maxHistoryLength now' args later in
  (live key = true ->
   r.1 = inr {| model := interpolate selectedModel +:+ " (cached)";
                response := response result;
                usage := usage result |}
   /\ upstream r.2 = upstream s'
   /\ cache r.2 = cache later
   /\ histories r.2 = histories s')
  /\ (live key = false ->
      let call := consultAI' (prompt args) selectedModel [] (upstream s') in
      r.1 = call.1
      /\ upstream r.2 = call.2
      /\ histories r.2 = histories s').
Proof.
  intros Hconv Hmodels Hfirst Hrl selectedModel key later r.
  assert (Hkey : exists cachedResult,
             cache s' !! key = Some cachedResult
             /\ response cachedResult = response result
             /\ usage cachedResult = usage result).
  { revert Hfirst. unfold key, selectedModel, ConsultationService.consult.
    destruct Hmodels as [-> | ->];
      destruct (RateLimiter.checkLimit requestsPerMinute now _ _)
        as [[|w] lm]; try discriminate;
      unfold clearIfRequested; rewrite Hconv;
      destruct (selectModel _ _ _) as [sel ws]; cbn [fst snd];
      unfold checkCache, cacheResult; cbn [warn setLimitMap cache upstream];
      (destruct (cache s !! generateCacheKey (prompt args) sel)
         as [cachedResult|] eqn:E;
       [ intros [= <- <-]; exists cachedResult;
         cbn [warn setLimitMap cache]; by rewrite E
       | destruct (consultAI _ _ _ _) as [[error|result0] u0];
         [discriminate |];
         intros [= <- <-]; exists result0;
         cbn [warn setLimitMap setCache setUpstream cache];
         by rewrite lookup_insert_eq ]). }
  destruct Hkey as (cachedResult & Hk & Hresp & Husage).
  split.
  - intros Hlive.
    assert (Hk' : cache later !! key = Some cachedResult).
    { unfold later, expire. simpl. by apply map_lookup_filter_Some. }
    pose proof (consult_cache_hit_value consultAI' requestsPerMinute
                  maxHistoryLength now' args later cachedResult
                  Hconv Hmodels Hrl Hk') as Hr.
    fold r in Hr. rewrite Hr. simpl. rewrite Hresp, Husage. done.
  - intros Hdead call.
    assert (Hk' : cache later !! key = None).
    { unfold later, expire. simpl. apply map_lookup_filter_None. right.
      intros x _. simpl. by rewrite Hdead. }
    revert Hk'. unfold r, call, key, selectedModel, ConsultationService.consult.
    assert (Hid : rateLimitId args = "global").
    { unfold rateLimitId. by rewrite Hconv. }
    rewrite Hid.
    change (limitMap later) with (limitMap s').
    destruct Hmodels as [-> | ->];
      destruct (RateLimiter.checkLimit requestsPerMinute now' _ _) as [o lm];
      simpl in Hrl; subst o;
      unfold clearIfRequested; rewrite Hconv;
      destruct (selectModel _ _ _) as [sel ws]; cbn [fst snd];
      unfold checkCache; cbn [warn setLimitMap cache upstream];
      intros Hk'; rewrite Hk';
      change (upstream later) with (upstream s');
      by destruct (consultAI' _ _ _ _) as [[error|result0] u0].
Qed.

End ServiceEffects.

(** *** Concrete runs of the effects *)

Lemma rate_limited_no_effect_witness :
  consult scriptedUpstream 1 20 1000 (request "ping" None) (afterPing 1)
  = (inl (rateLimitError 59), afterPing 1).
Proof.
  exact (proj1 (rate_limited_no_effect scriptedUpstream 1 20 1000
                  (request "ping" None) (afterPing 1) 59 eq_refl)).
Defined.

Lemma batch_effects_witness :
  let args := requestIn "c" "compare" (Some ["gpt-5-codex"; "grok-code-fast-1"]) in
  let final := (consult scriptedUpstream 20 3 0 args emptyState).2 in
  limitMap final = (RateLimiter.checkLimit 20 0 "c" ∅).2
  /\ length (HistoryManager.stored "c" (histories final)) = 2%nat.
Proof.
  split; [|reflexivity].
  exact (proj1 (batch_effects scriptedUpstream 20 3 0
                  (requestIn "c" "compare"
                     (Some ["gpt-5-codex"; "grok-code-fast-1"]))
                  emptyState ["gpt-5-codex"; "grok-code-fast-1"]
                  eq_refl ltac:(discriminate) eq_refl)).
Defined.

Lemma conversation_bypasses_cache_witness :
  (consult scriptedUpstream 20 20 0 (requestIn "c" "ping" None)
     (setCache (cache (afterPing 20)) emptyState)).1
  = (consult scriptedUpstream 20 20 0 (requestIn "c" "ping" None)
       emptyState).1.
Proof.
  exact (proj1 (conversation_bypasses_cache scriptedUpstream 20 20 0
                  (requestIn "c" "ping" None) emptyState
                  (cache (afterPing 20)) (ex_intro _ "c" eq_refl))).
Defined.

Lemma single_conversation_turn_witness :
  HistoryManager.stored "c"
    (histories (consult scriptedUpstream 20 20 0 (requestIn "c" "ping" None)
                  emptyState).2)
  = (HistoryManager.prune 20
       ([] ++ turn (requestIn "c" "ping" None) "answer")).2.
Proof.
  exact (proj1 (proj2 (single_conversation_turn scriptedUpstream 20 20 0
                  (requestIn "c" "ping" None) emptyState "c" pingAnswer
                  [Some "openai/gpt-5-codex"]
                  (or_introl eq_refl) eq_refl eq_refl eq_refl))).
Defined.

Lemma single_upstream_failure_witness :
  (consult scriptedUpstream 20 20 0 (requestOf "grok-code-fast-1" "ping")
     emptyState).1
  = inl (ApiError "OpenRouter API error: upstream unavailable").
Proof.
  exact (proj1 (single_upstream_failure scriptedUpstream 20 20 0
                  (requestOf "grok-code-fast-1" "ping") emptyState
                  (ApiError "OpenRouter API error: upstream unavailable")
                  [Some "x-ai/grok-code-fast-1"]
                  (or_introl eq_refl) eq_refl (fun _ => eq_refl) eq_refl)).
Defined.

(** The second "ping" while the entry is held, and after it has expired:
    the first is served from the cache, the second asks upstream again. *)
Lemma repeated_request_hits_cache_witness :
  (consult scriptedUpstream 20 20 1000 (request "ping" None)
     (expire (fun _ => true) (afterPing 20))).1
  = inr {| model := "openai/gpt-5-codex (cached)"; response := "answer";
           usage := usage pingAnswer |}
  /\ upstream
       (consult scriptedUpstream 20 20 400000 (request "ping" None)
          (expire (fun _ => false) (afterPing 20))).2
     = [Some "openai/gpt-5-codex"; Some "openai/gpt-5-codex"].
Proof.
  split.
  - exact (proj1 (proj1 (repeated_request_hits_cache scriptedUpstream 20 20
                    scriptedUpstream 0 1000 (request "ping" None)
                    emptyState (afterPing 20) pingAnswer (fun _ => true)
                    eq_refl (or_introl eq_refl) eq_refl eq_refl) eq_refl)).
  - exact (proj1 (proj2 (proj2 (repeated_request_hits_cache scriptedUpstream
                    20 20 scriptedUpstream 0 400000 (request "ping" None)
                    emptyState (afterPing 20) pingAnswer (fun _ => false)
                    eq_refl (or_introl eq_refl) eq_refl eq_refl) eq_refl))).
Defined.

End ConsultationServiceMoreFacts.

(** ** Facts about the API client *)

Module ApiClientFacts.
Import Types ApiClient.

Section ClientFacts.
Context {H B : Type}.
Variable post :
  string -> list OpenRouterMessage -> H -> (Thrown + OpenRouterResponse) * H.
Variable fire :
  string -> list OpenRouterMessage -> B -> (Thrown + OpenRouterResponse) * B.
Variable noChoiceMessage : string.

Local Abbreviation makeApiCall := (ApiClient.makeApiCall post).
Local Abbreviation consultAI := (ApiClient.consultAI fire noChoiceMessage).

(** X21.  Errors are wrapped twice on the way up.  [makeApiCall] turns an
    axios error into an [ApiError] that keeps the HTTP status.  When that
    [ApiError], or any other value that is no axios error, comes out of
    the circuit breaker, [consultAI] wraps it again: the error its caller
    gets has no status code, its message is the inner message behind
    "API error: " (or "Unknown API error occurred" for a value that is no
    error), and the inner value is its original error.  An answer without
    choices is reported the same way and is not returned as a result. *)
Theorem consultAI_loses_status
    (prompt model : string) (history : list OpenRouterMessage) (b : B) :
  let messages := history ++ [userMessage prompt] in
  (forall t b',
      fire model messages b = (inl t, b') ->
      consultAI prompt model history b = (inl (handleError t), b')
      /\ (isAxiosError t = false ->
          apiStatusCode (handleError t) = None
          /\ (t = NotAnError \/ apiOriginalError (handleError t) = Some t)))
  /\ (forall providerMessage message status h h',
        post model messages h
        = (inl (AxiosFailure providerMessage message status), h') ->
        exists inner,
          makeApiCall model messages h = (inl inner, h')
          /\ apiStatusCode inner = status
          /\ (forall b',
                fire model messages b = (inl (ApiErrorThrown inner), b') ->
                consultAI prompt model history b
                = (inl (MkApiError
                          ("API error: OpenRouter API error: "
                             +:+ axiosMessage providerMessage message)
                          None (Some (ApiErrorThrown inner))), b')))
  /\ (forall answer b',
        fire model messages b = (inr answer, b') ->
        match choices answer with
        | [] =>
            consultAI prompt model history b
            = (inl (MkApiError ("API error: " +:+ noChoiceMessage) None
                               (Some (OtherError noChoiceMessage))), b')
        | first :: _ =>
            consultAI prompt model history b
            = (inr {| Types.model := model; response := first;
                      usage := response_usage answer |}, b')
        end).
Proof.
  intros messages. split; [|split].
  - intros t b' Hf. unfold ApiClient.consultAI. fold messages. rewrite Hf.
    split; [done |]. intros Hax. destruct t; try discriminate; simpl; auto.
  - intros providerMessage message status h h' Hp.
    exists (handleError (AxiosFailure providerMessage message status)).
    unfold ApiClient.makeApiCall. rewrite Hp. split; [done |].
    split; [done |]. intros b' Hf.
    unfold ApiClient.consultAI. fold messages. rewrite Hf. simpl.
    reflexivity.
  - intros answer b' Hf. unfold ApiClient.consultAI. fold messages.
    rewrite Hf. by destruct (choices answer).
Qed.

End ClientFacts.

(** An HTTP 429 with a message of the provider, let through by the
    breaker: the caller of [consultAI] sees no status. *)
Lemma consultAI_loses_status_witness :
  apiStatusCode (handleError tooManyRequests) = Some 429%Z
  /\ exists e,
      ApiClient.consultAI (passThrough failingPost) "TypeError"
        "ping" "openai/gpt-5-codex" [] tt
      = (inl e, tt)
      /\ apiStatusCode e = None
      /\ apiMessage e = "API error: OpenRouter API error: slow down".
Proof.
  split; [reflexivity |].
  destruct (proj1 (proj2 (consultAI_loses_status failingPost
              (passThrough failingPost) "TypeError"
              "ping" "openai/gpt-5-codex" [] tt))
              (Some "slow down") "Request failed" (Some 429%Z) tt tt eq_refl)
    as (inner & Hmk & Hst & Hc).
  injection Hmk as <-.
  eexists. split; [exact (Hc tt eq_refl) |]. split; reflexivity.
Defined.

End ApiClientFacts.
